(** * A shallow embedding of the social-network data layer

    The repository is a set of service functions over SQLAlchemy models
    ([app/models/database.py], [app/services/user_service.py],
    [app/services/post_service.py], [app/services/message_service.py]).

    The relational store is embedded as a record of tables, each table a
    list of rows in storage order.  A service function that only reads is a
    function of the store; one that writes returns the new store next to
    its Python result; one that can raise returns a [result].  The clock
    read by the column default [datetime.utcnow] is an explicit argument
    [now] of every inserting function. *)

From Stdlib Require Import Ascii String.
From Stdlib Require Import ZArith List Bool Lia Permutation Sorted.
Import ListNotations.

#[local] Open Scope string_scope.
#[local] Open Scope list_scope.
#[local] Open Scope Z_scope.

(** ** Exceptions and results *)

(** The exceptions the embedded functions can raise. *)
Inductive exn : Type :=
| AttributeError   (* attribute access on [None] *)
| TypeError        (* a relationship collection assigned a non-list *)
| FlushError       (* [None] found in a relationship collection at flush *)
| StatementError   (* a bound value refused by its column type *)
| IntegrityError   (* a UNIQUE or PRIMARY KEY constraint violated at commit *)
| ConflictError.   (* the domain error of the specification; nothing raises it *)

Inductive result (A : Type) : Type :=
| Ok (a : A)
| Raise (e : exn).

Arguments Ok {A} a.
Arguments Raise {A} e.

Definition bind {A B : Type} (r : result A) (k : A -> result B) : result B :=
  match r with
  | Ok a => k a
  | Raise e => Raise e
  end.

Notation "x <- r ;; k" := (bind r (fun x => k))
  (at level 61, r at next level, right associativity).

(** Dereferencing a Python value that may be [None]. *)
Definition deref {A : Type} (o : option A) : result A :=
  match o with
  | Some a => Ok a
  | None => Raise AttributeError
  end.

(** A Python default argument: [None] stands for an omitted argument. *)
Definition default_arg {A : Type} (d : A) (o : option A) : A :=
  match o with
  | Some a => a
  | None => d
  end.

(** ** Query combinators *)

Section Query.
Context {A : Type}.

(** [Query.first()]: the first row of the result, or [None]. *)
Definition first (l : list A) : option A := hd_error l.

(** [INTEGER PRIMARY KEY] of a fresh row, as SQLite assigns it: one more
    than the largest key in the table, 1 in an empty table. *)
Definition next_id (id : A -> Z) (l : list A) : Z :=
  match l with
  | [] => 1
  | r :: l' => fold_right (fun x m => Z.max (id x) m) (id r) l' + 1
  end.

(** [ORDER BY key ASC], as a stable insertion sort: rows with equal keys
    keep their storage order. *)
Fixpoint insert_by (key : A -> Z) (x : A) (l : list A) : list A :=
  match l with
  | [] => [x]
  | y :: l' => if key x <=? key y then x :: l else y :: insert_by key x l'
  end.

Definition order_by_asc (key : A -> Z) (l : list A) : list A :=
  fold_right (insert_by key) [] l.

(** [ORDER BY key DESC], stable as well. *)
Definition order_by_desc (key : A -> Z) (l : list A) : list A :=
  order_by_asc (fun r => - key r) l.

(** The orders on rows that the sorted results are stated with. *)
Definition key_le (key : A -> Z) (a b : A) : Prop := key a <= key b.
Definition key_lt (key : A -> Z) (a b : A) : Prop := key a < key b.

(** [OFFSET] and [LIMIT] with non-negative row counts. *)
Definition offset (n : nat) (l : list A) : list A := skipn n l.
Definition limit (n : nat) (l : list A) : list A := firstn n l.
End Query.

(** ** The models of [app/models/database.py] *)

Module Database.

(** [class User]: every [String]/[Text] column is nullable. *)
Record User : Type := mkUser {
  user_id : Z;
  email : option string;
  username : option string;
  hashed_password : option string;
  full_name : option string;
  headline : option string;
  bio : option string;
  profile_image : option string;
  location : option string;
  user_created_at : option Z
}.

(** [class ConnectionRequest]; [status] is a [String] column holding
    ["pending"], ["accepted"] or ["rejected"]. *)
Record ConnectionRequest : Type := mkConnectionRequest {
  request_id : Z;
  request_sender_id : Z;
  request_receiver_id : Z;
  status : string;
  request_created_at : Z
}.

(** [class Post]. *)
Record Post : Type := mkPost {
  post_id : Z;
  author_id : Z;
  post_content : string;
  image_url : option string;
  post_created_at : Z
}.

(** [class Like]. *)
Record Like : Type := mkLike {
  like_id : Z;
  like_post_id : Z;
  like_user_id : Z;
  like_created_at : Z
}.

(** [class Message]. *)
Record Message : Type := mkMessage {
  message_id : Z;
  sender_id : Z;
  receiver_id : Z;
  content : string;
  read : bool;
  created_at : Z
}.

(** The store: one list of rows per table.  [connections] is the
    association table [connections(user_id, connection_id)]. *)
Record db : Type := mkDb {
  users : list User;
  connections : list (Z * Z);
  connection_requests : list ConnectionRequest;
  posts : list Post;
  likes : list Like;
  messages : list Message
}.

Definition empty_db : db := mkDb [] [] [] [] [] [].

Definition set_users (s : db) (l : list User) : db :=
  mkDb l (connections s) (connection_requests s) (posts s) (likes s) (messages s).
Definition set_connections (s : db) (l : list (Z * Z)) : db :=
  mkDb (users s) l (connection_requests s) (posts s) (likes s) (messages s).
Definition set_connection_requests (s : db) (l : list ConnectionRequest) : db :=
  mkDb (users s) (connections s) l (posts s) (likes s) (messages s).
Definition set_posts (s : db) (l : list Post) : db :=
  mkDb (users s) (connections s) (connection_requests s) l (likes s) (messages s).
Definition set_likes (s : db) (l : list Like) : db :=
  mkDb (users s) (connections s) (connection_requests s) (posts s) l (messages s).
Definition set_messages (s : db) (l : list Message) : db :=
  mkDb (users s) (connections s) (connection_requests s) (posts s) (likes s) l.

Definition set_read (m : Message) (b : bool) : Message :=
  mkMessage (message_id m) (sender_id m) (receiver_id m) (content m) b (created_at m).

Definition set_status (r : ConnectionRequest) (st : string) : ConnectionRequest :=
  mkConnectionRequest (request_id r) (request_sender_id r) (request_receiver_id r)
    st (request_created_at r).

(** The relationship [User.connections]: the users joined to [u] through
    the rows of the association table whose [user_id] is [u]'s id
    ([primaryjoin]) and whose [connection_id] is theirs
    ([secondaryjoin]). *)
Definition User_connections (s : db) (u : User) : list User :=
  filter
    (fun v =>
       existsb (fun c => (fst c =? user_id u) && (snd c =? user_id v))
         (connections s))
    (users s).

(** [class Comment]. *)
Record Comment : Type := mkComment {
  comment_id : Z;
  comment_post_id : Z;
  comment_author_id : Z;
  comment_content : string;
  comment_created_at : Z
}.

End Database.
Import Database.

(** ** [fastapi.UploadFile] *)

(** An uploaded file: its client-side name and its contents. *)
Record UploadFile : Type := mkUploadFile {
  filename : string;
  file : string
}.

(** ** [app/services/message_service.py] *)

Module MessageService.

(** [send_message]: a plain insert; [read] takes its default [False]. *)
Definition send_message (s : db) (now : Z) (sender receiver : Z) (text : string)
  : db * Message :=
  let message :=
    mkMessage (next_id message_id (messages s)) sender receiver text false now in
  (set_messages s (messages s ++ [message]), message).

(** The filter of [get_conversation]: the pair in either direction. *)
Definition between (user1_id user2_id : Z) (m : Message) : bool :=
  ((sender_id m =? user1_id) && (receiver_id m =? user2_id))
  || ((sender_id m =? user2_id) && (receiver_id m =? user1_id)).

(** [get_conversation(db, user1_id, user2_id, limit=50)]. *)
Definition get_conversation (s : db) (user1_id user2_id : Z) (lim : option nat)
  : list Message :=
  limit (default_arg 50%nat lim)
    (order_by_asc created_at (filter (between user1_id user2_id) (messages s))).

(** The filter of [mark_messages_as_read]. *)
Definition unread_from_to (sender user : Z) (m : Message) : bool :=
  (sender_id m =? sender) && (receiver_id m =? user) && negb (read m).

(** [mark_messages_as_read]: the selected rows get [read = True]; the
    result is the number of selected rows. *)
Definition mark_messages_as_read (s : db) (user sender : Z) : db * nat :=
  let selected := filter (unread_from_to sender user) (messages s) in
  (set_messages s
     (map (fun m => if unread_from_to sender user m then set_read m true else m)
        (messages s)),
   length selected).

(** The filter of [get_unread_messages_count]. *)
Definition unread_to (user : Z) (m : Message) : bool :=
  (receiver_id m =? user) && negb (read m).

(** [get_unread_messages_count]. *)
Definition get_unread_messages_count (s : db) (user : Z) : nat :=
  length (filter (unread_to user) (messages s)).

(** One entry of the list built by [get_conversations]: the dict with the
    keys ["user"], ["last_message"] and ["unread_count"]. *)
Record Conversation : Type := mkConversation {
  conv_user : User;
  last_message : option Message;
  unread_count : nat
}.

(** The key of the final sort:
    [x["last_message"].created_at if x["last_message"] else None]. *)
Definition sort_key (c : Conversation) : option Z :=
  option_map created_at (last_message c).

(** [conversations.sort(key=..., reverse=True)]: a stable sort, largest
    key first.  Keys are compared as soon as there are two entries, and
    comparing [None] raises [TypeError]. *)
Definition sort_conversations (l : list Conversation) : result (list Conversation) :=
  if (2 <=? length l)%nat
     && existsb (fun c => match sort_key c with None => true | Some _ => false end) l
  then Raise TypeError
  else Ok (order_by_desc (fun c => default_arg 0 (sort_key c)) l).

(** [get_conversations]. *)
Definition get_conversations (s : db) (uid : Z) : result (list Conversation) :=
  let sent_to :=
    nodup Z.eq_dec (map receiver_id (filter (fun m => sender_id m =? uid) (messages s))) in
  let received_from :=
    nodup Z.eq_dec (map sender_id (filter (fun m => receiver_id m =? uid) (messages s))) in
  let user_ids := nodup Z.eq_dec (sent_to ++ received_from) in
  let peers := filter (fun u => existsb (Z.eqb (user_id u)) user_ids) (users s) in
  let conversations :=
    map (fun other_user =>
           mkConversation other_user
             (first (order_by_desc created_at
                       (filter (between uid (user_id other_user)) (messages s))))
             (length (filter (unread_from_to (user_id other_user) uid) (messages s))))
      peers in
  sort_conversations conversations.

End MessageService.

(** ** [app/services/post_service.py] *)

Module PostService.

(** [get_feed_posts(db, user_id, skip=0, limit=20)]. *)
Definition get_feed_posts (s : db) (uid : Z) (skip lim : option nat) : list Post :=
  match first (filter (fun u => user_id u =? uid) (users s)) with
  | None => []
  | Some user =>
      let connection_ids := map user_id (User_connections s user) ++ [uid] in
      limit (default_arg 20%nat lim)
        (offset (default_arg 0%nat skip)
           (order_by_desc post_created_at
              (filter (fun p => existsb (Z.eqb (author_id p)) connection_ids)
                 (posts s))))
  end.

(** The filter shared by [like_post], [unlike_post] and [has_liked_post]. *)
Definition like_of (pid uid : Z) (l : Like) : bool :=
  (like_post_id l =? pid) && (like_user_id l =? uid).

(** [like_post]: the existing row if there is one, else a fresh row. *)
Definition like_post (s : db) (now : Z) (pid uid : Z) : db * Like :=
  match first (filter (like_of pid uid) (likes s)) with
  | Some existing_like => (s, existing_like)
  | None =>
      let like := mkLike (next_id like_id (likes s)) pid uid now in
      (set_likes s (likes s ++ [like]), like)
  end.

(** [unlike_post]: [db.delete(like)] removes the row with that key. *)
Definition unlike_post (s : db) (pid uid : Z) : db * bool :=
  match first (filter (like_of pid uid) (likes s)) with
  | Some like =>
      (set_likes s (filter (fun l => negb (like_id l =? like_id like)) (likes s)),
       true)
  | None => (s, false)
  end.

(** [has_liked_post]. *)
Definition has_liked_post (s : db) (pid uid : Z) : bool :=
  match first (filter (like_of pid uid) (likes s)) with
  | Some _ => true
  | None => false
  end.

(** [get_post_likes_count]. *)
Definition get_post_likes_count (s : db) (pid : Z) : nat :=
  length (filter (fun l => like_post_id l =? pid) (likes s)).

(** [get_post_by_id]. *)
Definition get_post_by_id (s : db) (pid : Z) : option Post :=
  first (filter (fun p => post_id p =? pid) (posts s)).

(** [get_user_posts(db, user_id, skip=0, limit=10)]. *)
Definition get_user_posts (s : db) (uid : Z) (skip lim : option nat) : list Post :=
  limit (default_arg 10%nat lim)
    (offset (default_arg 0%nat skip)
       (order_by_desc post_created_at
          (filter (fun p => author_id p =? uid) (posts s)))).

(** [add_comment] and [get_post_comments] touch the table [comments]
    alone, which they take and return. *)
Definition add_comment (comments : list Comment) (now : Z) (pid author : Z)
    (text : string) : list Comment * Comment :=
  let comment := mkComment (next_id comment_id comments) pid author text now in
  (comments ++ [comment], comment).

Definition get_post_comments (comments : list Comment) (pid : Z) : list Comment :=
  order_by_asc comment_created_at
    (filter (fun c => comment_post_id c =? pid) comments).

Section CreatePost.
(** The file system and what the standard library does for [create_post]:
    the text an f-string gives an [int] and the float of
    [datetime.timestamp()], and [os.makedirs] followed by [open(path, "wb")]
    and [shutil.copyfileobj], which gives the new file system or raises
    ([None]). *)
Variable fs : Type.
Variable str_of_int : Z -> string.
Variable str_of_timestamp : Z -> string.
Variable save : string -> string -> string -> fs -> option fs.

(** The name both f-strings of [create_post] end with. *)
Definition image_name (author : Z) (t : Z) (image : UploadFile) : string :=
  (str_of_int author ++ "_" ++ str_of_timestamp t ++ "_" ++ filename image)%string.

(** [create_post]; the clock is read for the path, again for the URL
    ([t_path], [t_url]) and by the column default ([now]).  [None] is the
    exception of the file write, raised before anything is stored. *)
Definition create_post (s : db) (disk : fs) (t_path t_url now : Z)
    (author : Z) (text : string) (image : option UploadFile)
  : option (db * fs * Post) :=
  let stored :=
    match image with
    | Some img =>
        let upload_dir := "app/static/post_images" in
        let file_path := (upload_dir ++ "/" ++ image_name author t_path img)%string in
        match save upload_dir file_path (file img) disk with
        | Some disk' =>
            Some (disk', Some ("/static/post_images/" ++ image_name author t_url img)%string)
        | None => None
        end
    | None => Some (disk, None)
    end in
  match stored with
  | Some (disk', url) =>
      let post := mkPost (next_id post_id (posts s)) author text url now in
      Some (set_posts s (posts s ++ [post]), disk', post)
  | None => None
  end.
End CreatePost.

End PostService.

(** ** [app/services/user_service.py] *)

Module UserService.

(** *** Attributes of a [User] object *)

(** The [String]/[Text] columns. *)
Inductive string_column : Type :=
| Email | Username | HashedPassword | FullName
| Headline | Bio | ProfileImage | Location.

(** What a name denotes on a [User] object: the integer key, a string
    column, the [DateTime] column, or a relationship collection. *)
Inductive attribute : Type :=
| Aid
| Astring (c : string_column)
| Acreated_at
| Arelationship.

(** The mapped attributes of [class User], the backref [connected_to]
    included. *)
Definition User_attributes : list (string * attribute) :=
  [ ("id", Aid); ("email", Astring Email); ("username", Astring Username);
    ("hashed_password", Astring HashedPassword);
    ("full_name", Astring FullName); ("headline", Astring Headline);
    ("bio", Astring Bio); ("profile_image", Astring ProfileImage);
    ("location", Astring Location); ("created_at", Acreated_at);
    ("experiences", Arelationship); ("educations", Arelationship);
    ("posts", Arelationship); ("sent_messages", Arelationship);
    ("received_messages", Arelationship); ("sent_requests", Arelationship);
    ("received_requests", Arelationship); ("connections", Arelationship);
    ("connected_to", Arelationship) ].

Definition attribute_of (key : string) : option attribute :=
  option_map snd (find (fun kv => String.eqb (fst kv) key) User_attributes).

Section ObjectProtocol.
(** A [User] object has more attributes than the mapped ones: the names
    of the Python object protocol and of the declarative machinery
    ([__class__], [__dict__], [metadata], ...).  Which names they are, and
    what assigning [None] or a [str] to one of them does, is Python's and
    SQLAlchemy's to say: [object_attribute] tells these names, and
    [setattr_object] gives the exception the assignment raises, or [None]
    when the value is stored on the object and no column is touched. *)
Variable object_attribute : string -> bool.
Variable setattr_object : string -> option string -> option exn.

Definition hasattr (key : string) : bool :=
  match attribute_of key with
  | Some _ => true
  | None => object_attribute key
  end.

(** The name of a string column. *)
Definition column_name (c : string_column) : string :=
  match c with
  | Email => "email"
  | Username => "username"
  | HashedPassword => "hashed_password"
  | FullName => "full_name"
  | Headline => "headline"
  | Bio => "bio"
  | ProfileImage => "profile_image"
  | Location => "location"
  end.

Definition get_column (c : string_column) (u : User) : option string :=
  match c with
  | Email => email u
  | Username => username u
  | HashedPassword => hashed_password u
  | FullName => full_name u
  | Headline => headline u
  | Bio => bio u
  | ProfileImage => profile_image u
  | Location => location u
  end.

Definition set_column (c : string_column) (v : option string) (u : User) : User :=
  match c with
  | Email =>
      mkUser (user_id u) v (username u) (hashed_password u) (full_name u)
        (headline u) (bio u) (profile_image u) (location u) (user_created_at u)
  | Username =>
      mkUser (user_id u) (email u) v (hashed_password u) (full_name u)
        (headline u) (bio u) (profile_image u) (location u) (user_created_at u)
  | HashedPassword =>
      mkUser (user_id u) (email u) (username u) v (full_name u)
        (headline u) (bio u) (profile_image u) (location u) (user_created_at u)
  | FullName =>
      mkUser (user_id u) (email u) (username u) (hashed_password u) v
        (headline u) (bio u) (profile_image u) (location u) (user_created_at u)
  | Headline =>
      mkUser (user_id u) (email u) (username u) (hashed_password u) (full_name u)
        v (bio u) (profile_image u) (location u) (user_created_at u)
  | Bio =>
      mkUser (user_id u) (email u) (username u) (hashed_password u) (full_name u)
        (headline u) v (profile_image u) (location u) (user_created_at u)
  | ProfileImage =>
      mkUser (user_id u) (email u) (username u) (hashed_password u) (full_name u)
        (headline u) (bio u) v (location u) (user_created_at u)
  | Location =>
      mkUser (user_id u) (email u) (username u) (hashed_password u) (full_name u)
        (headline u) (bio u) (profile_image u) v (user_created_at u)
  end.

Definition clear_created_at (u : User) : User :=
  mkUser (user_id u) (email u) (username u) (hashed_password u) (full_name u)
    (headline u) (bio u) (profile_image u) (location u) None.

(** A [User] object held by the session.  Keyword values are [None] or a
    [str]; [unstorable] records that the key or the [DateTime] attribute
    holds a [str], which the column type refuses when the row is
    written. *)
Record session_user : Type := mkSessionUser {
  obj : User;
  unstorable : bool
}.

(** [setattr(user, key, value)] for a value that is [None] or a [str].
    A relationship collection refuses anything that is not list-like. *)
Definition setattr (p : session_user) (key : string) (value : option string)
  : result session_user :=
  match attribute_of key with
  | Some (Astring c) => Ok (mkSessionUser (set_column c value (obj p)) (unstorable p))
  | Some Acreated_at =>
      match value with
      | None => Ok (mkSessionUser (clear_created_at (obj p)) false)
      | Some _ => Ok (mkSessionUser (obj p) true)
      end
  | Some Aid => Ok (mkSessionUser (obj p) true)
  | Some Arelationship => Raise TypeError
  | None =>
      if object_attribute key then
        match setattr_object key value with
        | Some e => Raise e
        | None => Ok p
        end
      else Ok p
  end.

(** *** The unique constraints on [users.email] and [users.username] *)

(** Does a row already hold the non-null value [x] in column [col]? *)
Definition taken (col : User -> option string) (x : option string)
    (rows : list User) : bool :=
  match x with
  | None => false
  | Some e =>
      existsb
        (fun v => match col v with
                  | Some e' => String.eqb e' e
                  | None => false
                  end)
        rows
  end.

Definition same (a b : option string) : bool :=
  match a, b with
  | Some x, Some y => String.eqb x y
  | None, None => true
  | _, _ => false
  end.

(** [db.commit()] after the attributes of [user] were set to those of
    [p]: the UPDATE fails on a value its column refuses, then on a
    changed email or username another row holds. *)
Definition commit_user (s : db) (user : User) (p : session_user)
  : result (db * option User) :=
  let others := filter (fun v => negb (user_id v =? user_id user)) (users s) in
  let clash col := negb (same (col user) (col (obj p))) && taken col (col (obj p)) others in
  if unstorable p then Raise StatementError
  else if clash email || clash username then Raise IntegrityError
  else
    Ok (set_users s
          (map (fun v => if user_id v =? user_id user then obj p else v) (users s)),
        Some (obj p)).

(** *** The service functions *)

(** [get_user_by_id]. *)
Definition get_user_by_id (s : db) (uid : Z) : option User :=
  first (filter (fun u => user_id u =? uid) (users s)).

Section CreateUser.
(** [app.services.auth.get_password_hash], the credential hasher. *)
Variable get_password_hash : string -> string.

(** [create_user]: the insert is refused at commit when the email or
    the username is already held by a row. *)
Definition create_user (s : db) (now : Z)
    (email_ username_ password full_name_ : string) : result (db * User) :=
  let hashed := get_password_hash password in
  let db_user :=
    mkUser (next_id user_id (users s)) (Some email_) (Some username_)
      (Some hashed) (Some full_name_) None None
      (Some "/static/default_profile.png") None (Some now) in
  if taken email (Some email_) (users s) || taken username (Some username_) (users s)
  then Raise IntegrityError
  else Ok (set_users s (users s ++ [db_user]), db_user).
End CreateUser.

(** The body of the loop of [update_profile], for one item of
    [kwargs.items()]; an exception raised earlier goes through. *)
Definition apply_kwarg (acc : result session_user) (kv : string * option string)
  : result session_user :=
  p <- acc ;;
  if hasattr (fst kv)
     && negb (String.eqb (fst kv) "id")
     && negb (String.eqb (fst kv) "hashed_password")
  then setattr p (fst kv) (snd kv)
  else Ok p.

(** [update_profile(db, user_id, **kwargs)]; [kwargs] in the order of
    [kwargs.items()]. *)
Definition update_profile (s : db) (uid : Z) (kwargs : list (string * option string))
  : result (db * option User) :=
  match get_user_by_id s uid with
  | None => Ok (s, None)
  | Some user =>
      p <- fold_left apply_kwarg kwargs (Ok (mkSessionUser user false)) ;;
      commit_user s user p
  end.
End ObjectProtocol.

(** [get_user_connections]. *)
Definition get_user_connections (s : db) (uid : Z) : list User :=
  match get_user_by_id s uid with
  | None => []
  | Some user => User_connections s user
  end.

(** The filter of the first query of [send_connection_request]. *)
Definition pending_from_to (sender receiver : Z) (r : ConnectionRequest) : bool :=
  (request_sender_id r =? sender)
  && (request_receiver_id r =? receiver)
  && String.eqb (status r) "pending".

(** [send_connection_request]; [sender.connections] dereferences the
    result of [get_user_by_id]. *)
Definition send_connection_request (s : db) (now : Z) (sender_id receiver_id : Z)
  : result (db * option ConnectionRequest) :=
  match first (filter (pending_from_to sender_id receiver_id) (connection_requests s)) with
  | Some existing_request => Ok (s, Some existing_request)
  | None =>
      sender <- deref (get_user_by_id s sender_id) ;;
      if existsb (fun conn => user_id conn =? receiver_id) (User_connections s sender)
      then Ok (s, None)
      else
        let request :=
          mkConnectionRequest (next_id request_id (connection_requests s))
            sender_id receiver_id "pending" now in
        Ok (set_connection_requests s (connection_requests s ++ [request]),
            Some request)
  end.

(** [sender.connections.append(receiver)] at commit: the row
    (sender, receiver) is inserted in the association table, whose primary
    key is the pair, so that a row already stored makes the commit
    raise. *)
Definition append_connection (sender receiver : User) (rows : list (Z * Z))
  : result (list (Z * Z)) :=
  if existsb (fun c => (fst c =? user_id sender) && (snd c =? user_id receiver)) rows
  then Raise IntegrityError
  else Ok (rows ++ [(user_id sender, user_id receiver)]).

(** The UPDATE of one request row. *)
Definition store_request (r : ConnectionRequest) (rows : list ConnectionRequest)
  : list ConnectionRequest :=
  map (fun x => if request_id x =? request_id r then r else x) rows.

(** [accept_connection_request].  A missing sender fails on
    [sender.connections]; a missing receiver puts [None] in the
    collection, which the flush refuses; a connection row already stored
    fails the commit, and then nothing is stored. *)
Definition accept_connection_request (s : db) (rid : Z)
  : result (db * option ConnectionRequest) :=
  match first (filter (fun r => request_id r =? rid) (connection_requests s)) with
  | None => Ok (s, None)
  | Some request =>
      if negb (String.eqb (status request) "pending") then Ok (s, None)
      else
        let request' := set_status request "accepted" in
        let sender := get_user_by_id s (request_sender_id request) in
        let receiver := get_user_by_id s (request_receiver_id request) in
        sender <- deref sender ;;
        match receiver with
        | None => Raise FlushError
        | Some receiver =>
            rows <- append_connection sender receiver (connections s) ;;
            Ok (mkDb (users s) rows
                  (store_request request' (connection_requests s))
                  (posts s) (likes s) (messages s),
                Some request')
        end
  end.

(** [reject_connection_request]. *)
Definition reject_connection_request (s : db) (rid : Z)
  : db * option ConnectionRequest :=
  match first (filter (fun r => request_id r =? rid) (connection_requests s)) with
  | None => (s, None)
  | Some request =>
      if negb (String.eqb (status request) "pending") then (s, None)
      else
        let request' := set_status request "rejected" in
        (set_connection_requests s (store_request request' (connection_requests s)),
         Some request')
  end.

(** [get_pending_requests]. *)
Definition get_pending_requests (s : db) (uid : Z) : list ConnectionRequest :=
  filter (fun r => (request_receiver_id r =? uid) && String.eqb (status r) "pending")
    (connection_requests s).

(** [get_user_by_username]. *)
Definition get_user_by_username (s : db) (name : string) : option User :=
  first (filter (fun u => same (username u) (Some name)) (users s)).

(** [get_user_by_email]. *)
Definition get_user_by_email (s : db) (address : string) : option User :=
  first (filter (fun u => same (email u) (Some address)) (users s)).

Definition set_profile_image (u : User) (v : option string) : User :=
  set_column ProfileImage v u.

Section UpdateProfileImage.
(** The file system and the standard library, as for [create_post]. *)
Variable fs : Type.
Variable str_of_int : Z -> string.
Variable save : string -> string -> string -> fs -> option fs.

(** [update_profile_image]; [None] is the exception of the file write,
    raised before anything is stored. *)
Definition update_profile_image (s : db) (disk : fs) (uid : Z) (upload : UploadFile)
  : option (db * fs * option User) :=
  match get_user_by_id s uid with
  | None => Some (s, disk, None)
  | Some user =>
      let upload_dir := "app/static/profile_images" in
      let file_path :=
        (upload_dir ++ "/" ++ str_of_int uid ++ "_" ++ filename upload)%string in
      match save upload_dir file_path (file upload) disk with
      | None => None
      | Some disk' =>
          let relative_path :=
            ("/static/profile_images/" ++ str_of_int uid ++ "_" ++ filename upload)%string in
          let user' := set_profile_image user (Some relative_path) in
          Some (set_users s
                  (map (fun v => if user_id v =? user_id user then user' else v)
                     (users s)),
                disk', Some user')
      end
  end.
End UpdateProfileImage.

(** *** [search_users] *)

(** [lower()] as SQLite has it: the letters A to Z, nothing else. *)
Definition lower_char (c : Ascii.ascii) : Ascii.ascii :=
  let n := Ascii.N_of_ascii c in
  if ((65 <=? n) && (n <=? 90))%N then Ascii.ascii_of_N (n + 32) else c.

Fixpoint lower (t : string) : string :=
  match t with
  | EmptyString => EmptyString
  | String c t' => String (lower_char c) (lower t')
  end.

(** [text LIKE pattern] on characters taken as they are: [%] stands for
    any run of characters, [_] for any one character, and there is no
    escape character. *)
Fixpoint like (pattern : string) : string -> bool :=
  match pattern with
  | EmptyString =>
      fun text => match text with EmptyString => true | String _ _ => false end
  | String c pattern' =>
      if Ascii.eqb c "%"%char then
        fix any_run (text : string) : bool :=
          like pattern' text
          || match text with
             | EmptyString => false
             | String _ text' => any_run text'
             end
      else if Ascii.eqb c "_"%char then
        fun text =>
          match text with
          | EmptyString => false
          | String _ text' => like pattern' text'
          end
      else
        fun text =>
          match text with
          | EmptyString => false
          | String a text' => Ascii.eqb a c && like pattern' text'
          end
  end.

(** [column.ilike(pattern)], compiled for SQLite as
    [lower(column) LIKE lower(pattern)]; a NULL column selects nothing. *)
Definition ilike (column : option string) (pattern : string) : bool :=
  match column with
  | Some text => like (lower pattern) (lower text)
  | None => false
  end.

(** [search_users(db, query, limit=10)]. *)
Definition search_users (s : db) (query : string) (lim : option nat) : list User :=
  let pattern := ("%" ++ query ++ "%")%string in
  limit (default_arg 10%nat lim)
    (filter (fun u => ilike (full_name u) pattern
                      || ilike (headline u) pattern
                      || ilike (username u) pattern)
       (users s)).

End UserService.

(** ** Relations the properties are stated with *)

(** Row [m'] is row [m] after [mark_messages_as_read(user, sender)]: every
    column but [read] is kept, and [read] is set when [m] goes from
    [sender] to [user]. *)
Definition marks_read (sender user : Z) (m m' : Message) : Prop :=
  message_id m' = message_id m
  /\ sender_id m' = sender_id m
  /\ receiver_id m' = receiver_id m
  /\ content m' = content m
  /\ created_at m' = created_at m
  /\ read m' = read m || ((sender_id m =? sender) && (receiver_id m =? user)).

(** The posts [get_feed_posts(uid, ...)] is specified to draw from: those
    written by [uid] or by one of [get_user_connections(uid)]. *)
Definition in_feed_of (s : db) (uid : Z) (p : Post) : bool :=
  (author_id p =? uid)
  || existsb (fun v => user_id v =? author_id p) (UserService.get_user_connections s uid).

Definition newest_first (p q : Post) : Prop := post_created_at q <= post_created_at p.

(** The test of the loop of [update_profile] on a key. *)
Definition assignable (object_attribute : string -> bool) (key : string) : bool :=
  UserService.hasattr object_attribute key
  && negb (String.eqb key "id")
  && negb (String.eqb key "hashed_password").

(** Every key of the map is a mapped attribute of [User] or no attribute
    of a [User] object at all. *)
Definition mapped_or_unknown (object_attribute : string -> bool)
    (kwargs : list (string * option string)) : Prop :=
  forall k v, In (k, v) kwargs ->
              UserService.attribute_of k = None -> object_attribute k = false.

(** The map names no relationship collection. *)
Definition no_relationship (kwargs : list (string * option string)) : Prop :=
  forall k v, In (k, v) kwargs ->
              UserService.attribute_of k <> Some UserService.Arelationship.

(** Another user than [uid] holds the value [e] in column [col]. *)
Definition held_by_other (s : db) (uid : Z) (col : User -> option string)
    (e : string) : Prop :=
  exists w, In w (users s) /\ user_id w <> uid /\ col w = Some e.

(** What [update_profile] keeps of user [u0] in [u] when the map has the
    keys [keys]: the id, the stored credential, every string column and the
    creation time that no key names. *)
Definition profile_frame (keys : list string) (u0 u : User) : Prop :=
  user_id u = user_id u0
  /\ hashed_password u = hashed_password u0
  /\ (forall c, ~ In (UserService.column_name c) keys ->
                UserService.get_column c u = UserService.get_column c u0)
  /\ (~ In "created_at" keys -> user_created_at u = user_created_at u0).

(** Entry [c] of [get_conversations] sorts before entry [d]: both have a
    last message and that of [d] is not the more recent. *)
Definition recent_first (c d : MessageService.Conversation) : Prop :=
  exists m m',
    MessageService.last_message c = Some m
    /\ MessageService.last_message d = Some m'
    /\ created_at m' <= created_at m.

(** The invariant of the table of likes that [like_post] maintains by
    checking before it inserts: keys are distinct and a (post, user) pair
    has at most one row. *)
Definition likes_wf (s : db) : Prop :=
  NoDup (map like_id (likes s))
  /\ forall pid uid,
       (length (filter (PostService.like_of pid uid) (likes s)) <= 1)%nat.

(** The invariant of the table of users that the primary key and the
    two unique constraints stand for: ids are distinct, and so are the
    emails and the usernames that are not NULL. *)
Definition unique_column (col : User -> option string) (rows : list User) : Prop :=
  forall u v e, In u rows -> In v rows -> col u = Some e -> col v = Some e ->
                user_id u = user_id v.

Definition users_wf (s : db) : Prop :=
  NoDup (map user_id (users s))
  /\ unique_column email (users s)
  /\ unique_column username (users s).

(** [c] and [d] are the same character, or the same letter A to Z (codes
    65 to 90) once in upper and once in lower case (32 above). *)
Definition same_letter (c d : ascii) : Prop :=
  c = d
  \/ ((65 <= N_of_ascii c <= 90)%N /\ N_of_ascii d = (N_of_ascii c + 32)%N)
  \/ ((65 <= N_of_ascii d <= 90)%N /\ N_of_ascii c = (N_of_ascii d + 32)%N).

(** Two texts that differ in letter case at most. *)
Inductive same_text : string -> string -> Prop :=
| same_text_empty : same_text EmptyString EmptyString
| same_text_char (c d : ascii) (t t' : string) :
    same_letter c d -> same_text t t' -> same_text (String c t) (String d t').

(** [q] occurs in [text] when letter case is ignored: [text] is not NULL
    and some run of consecutive characters of it is [q] up to case. *)
Definition occurs_in (q : string) (text : option string) : Prop :=
  exists v a m b,
    text = Some v /\ v = (a ++ m ++ b)%string /\ same_text q m.

(** A query with no character that LIKE reads as a wildcard. *)
Fixpoint plain (q : string) : Prop :=
  match q with
  | EmptyString => True
  | String c q' => c <> "%"%char /\ c <> "_"%char /\ plain q'
  end.

(** * Properties *)

(** ** Facts about the query combinators *)

Section QueryFacts.
Context {A : Type}.
Variable key : A -> Z.

Lemma insert_by_perm (x : A) (l : list A) :
  Permutation (insert_by key x l) (x :: l).
Proof.
  induction l as [|y l IH]; simpl.
  - apply Permutation_refl.
  - destruct (key x <=? key y).
    + apply Permutation_refl.
    + eapply perm_trans; [apply perm_skip, IH | apply perm_swap].
Qed.

Lemma order_by_asc_perm (l : list A) : Permutation (order_by_asc key l) l.
Proof.
  induction l as [|x l IH]; simpl.
  - constructor.
  - eapply perm_trans; [apply insert_by_perm | apply perm_skip, IH].
Qed.

Lemma order_by_asc_In (l : list A) (x : A) : In x (order_by_asc key l) <-> In x l.
Proof.
  split; apply Permutation_in;
    [apply order_by_asc_perm | apply Permutation_sym, order_by_asc_perm].
Qed.

Lemma insert_by_sorted (x : A) (l : list A) :
  StronglySorted (key_le key) l -> StronglySorted (key_le key) (insert_by key x l).
Proof.
  induction 1 as [|y l Hl IH Hy]; simpl.
  - repeat constructor.
  - destruct (key x <=? key y) eqn:E.
    + apply Z.leb_le in E. constructor.
      * constructor; assumption.
      * constructor; [exact E|].
        eapply Forall_impl; [|exact Hy].
        unfold key_le; intros; lia.
    + apply Z.leb_gt in E. constructor; [exact IH|].
      apply (Permutation_Forall (Permutation_sym (insert_by_perm x l))).
      constructor; [unfold key_le; lia | exact Hy].
Qed.

Lemma order_by_asc_sorted (l : list A) : StronglySorted (key_le key) (order_by_asc key l).
Proof.
  induction l as [|x l IH]; simpl.
  - constructor.
  - apply insert_by_sorted, IH.
Qed.

(** A list sorted by key that rearranges a list with strictly increasing
    keys is that list. *)
Lemma sorted_perm_unique (l1 l2 : list A) :
  StronglySorted (key_le key) l1 -> StronglySorted (key_lt key) l2 ->
  Permutation l1 l2 -> l1 = l2.
Proof.
  intros H1; revert l2.
  induction H1 as [|a l1 Hl1 IH Ha]; intros l2 H2 HP.
  - apply Permutation_nil in HP. now subst.
  - destruct H2 as [|b l2 Hl2 Hb].
    + apply Permutation_sym, Permutation_nil in HP. discriminate.
    + assert (a = b) as ->.
      { assert (In a (b :: l2)) as [->|Ia]
          by (eapply Permutation_in; [exact HP | now left]); [reflexivity|].
        assert (In b (a :: l1)) as [->|Ib]
          by (eapply Permutation_in; [apply Permutation_sym, HP | now left]);
          [reflexivity|].
        rewrite Forall_forall in Ha, Hb.
        specialize (Ha _ Ib). specialize (Hb _ Ia).
        unfold key_le, key_lt in *. lia. }
      f_equal. apply IH; [assumption|].
      eapply Permutation_cons_inv; exact HP.
Qed.

Lemma sorted_app_le (l1 l2 : list A) :
  StronglySorted (key_le key) (l1 ++ l2) ->
  forall a b, In a l1 -> In b l2 -> key a <= key b.
Proof.
  induction l1 as [|x l1 IH]; simpl; intros HS a b Ia Ib; [contradiction|].
  inversion HS as [|? ? HS' Hx]; subst.
  destruct Ia as [->|Ia].
  - rewrite Forall_forall in Hx. apply Hx, in_or_app. now right.
  - now apply IH.
Qed.

Lemma In_limit (n : nat) (l : list A) (x : A) : In x (limit n l) -> In x l.
Proof.
  unfold limit. intros H. rewrite <- (firstn_skipn n l).
  apply in_or_app. now left.
Qed.

Lemma In_offset (n : nat) (l : list A) (x : A) : In x (offset n l) -> In x l.
Proof.
  unfold offset. intros H. rewrite <- (firstn_skipn n l).
  apply in_or_app. now right.
Qed.

Lemma sorted_app_inv (l1 l2 : list A) :
  StronglySorted (key_le key) (l1 ++ l2) ->
  StronglySorted (key_le key) l1 /\ StronglySorted (key_le key) l2.
Proof.
  induction l1 as [|x l1 IH]; simpl; intros HS.
  - split; [constructor | exact HS].
  - inversion HS as [|? ? HS' Hx]; subst.
    destruct (IH HS') as [H1 H2]. split; [|exact H2].
    constructor; [exact H1|].
    apply Forall_app in Hx. tauto.
Qed.

Lemma sorted_firstn (n : nat) (l : list A) :
  StronglySorted (key_le key) l -> StronglySorted (key_le key) (firstn n l).
Proof.
  intros HS. rewrite <- (firstn_skipn n l) in HS.
  apply sorted_app_inv in HS. tauto.
Qed.

Lemma sorted_skipn (n : nat) (l : list A) :
  StronglySorted (key_le key) l -> StronglySorted (key_le key) (skipn n l).
Proof.
  intros HS. rewrite <- (firstn_skipn n l) in HS.
  apply sorted_app_inv in HS. tauto.
Qed.
End QueryFacts.

(** ** Messaging *)

Section Messaging.
Import MessageService.

Lemma between_spec (a b : Z) (m : Message) :
  between a b m = true <->
  (sender_id m = a /\ receiver_id m = b) \/ (sender_id m = b /\ receiver_id m = a).
Proof.
  unfold between.
  rewrite orb_true_iff, !andb_true_iff, !Z.eqb_eq. tauto.
Qed.

(** C3.  [get_conversation(A, B, limit)] returns messages of the table
    exchanged between A and B in either direction, and only those; they
    are ordered oldest first; there are [min limit k] of them when [k]
    messages were exchanged (at most 50 when the limit is omitted); they
    are taken from the oldest end: the exchanged messages left out are
    all at least as recent as every message returned, and none is left
    out when the limit allows; and three exchanged messages created at
    times t1 < t2 < t3 come back as [t1, t2, t3] in whatever order they
    are stored. *)
Theorem get_conversation_oldest_first (s : db) (a b : Z) (lim : option nat) :
  let n := default_arg 50%nat lim in
  let exchanged := filter (between a b) (messages s) in
  let r := get_conversation s a b lim in
  (forall m, In m r ->
     In m (messages s) /\
     ((sender_id m = a /\ receiver_id m = b) \/ (sender_id m = b /\ receiver_id m = a)))
  /\ StronglySorted (key_le created_at) r
  /\ length r = Nat.min n (length exchanged)
  /\ (length (get_conversation s a b None) <= 50)%nat
  /\ (exists rest,
        Permutation (r ++ rest) exchanged /\
        forall m m', In m r -> In m' rest -> created_at m <= created_at m')
  /\ ((length exchanged <= n)%nat -> Permutation r exchanged)
  /\ (forall m1 m2 m3,
        Permutation exchanged [m1; m2; m3] ->
        created_at m1 < created_at m2 < created_at m3 ->
        (3 <= n)%nat ->
        r = [m1; m2; m3]).
Proof.
  intros n exchanged r.
  assert (Hr : r = firstn n (order_by_asc created_at exchanged)) by reflexivity.
  pose proof (order_by_asc_sorted created_at exchanged) as HS.
  pose proof (order_by_asc_perm created_at exchanged) as HP.
  repeat split.
  - rewrite Hr in H. apply In_limit, order_by_asc_In, filter_In in H. tauto.
  - rewrite Hr in H. apply In_limit, order_by_asc_In, filter_In in H.
    apply between_spec. tauto.
  - rewrite Hr. now apply sorted_firstn.
  - rewrite Hr, length_firstn. f_equal.
    apply Permutation_length, HP.
  - unfold get_conversation, limit, default_arg. apply firstn_le_length.
  - exists (skipn n (order_by_asc created_at exchanged)). split.
    + rewrite Hr, firstn_skipn. exact HP.
    + rewrite Hr. apply (sorted_app_le created_at).
      now rewrite firstn_skipn.
  - intros Hlen. rewrite Hr, firstn_all2; [exact HP|].
    now rewrite (Permutation_length HP).
  - intros m1 m2 m3 H123 Ht Hn.
    assert (Hall : order_by_asc created_at exchanged = [m1; m2; m3]).
    { apply (sorted_perm_unique created_at); [exact HS| |].
      - repeat constructor; unfold key_lt; lia.
      - eapply perm_trans; eassumption. }
    rewrite Hr, Hall. apply firstn_all2. simpl. lia.
Qed.

(** The ordering example at a concrete store: three messages between
    users 1 and 2 stored out of time order, next to a message of another
    conversation. *)
Lemma get_conversation_oldest_first_witness :
  let m3 := mkMessage 1 1 2 "third" false 30 in
  let m1 := mkMessage 2 2 1 "first" false 10 in
  let mx := mkMessage 3 1 3 "other" false 15 in
  let m2 := mkMessage 4 1 2 "second" true 20 in
  let s := set_messages empty_db [m3; m1; mx; m2] in
  get_conversation s 1 2 None = [m1; m2; m3]
  /\ get_conversation s 1 2 (Some 2%nat) = [m1; m2].
Proof.
  intros m3 m1 mx m2 s. split.
  - apply (get_conversation_oldest_first s 1 2 None).
    + exact (Permutation_app_comm [m3] [m1; m2]).
    + simpl; lia.
    + simpl; lia.
  - reflexivity.
Defined.

Lemma mark_rows (sender user : Z) (l : list Message) :
  Forall2 (marks_read sender user) l
    (map (fun m => if unread_from_to sender user m then set_read m true else m) l).
Proof.
  induction l as [|m l IH]; simpl; constructor; [|exact IH].
  unfold marks_read, unread_from_to.
  destruct (sender_id m =? sender) eqn:Es, (receiver_id m =? user) eqn:Er,
    (read m) eqn:Ed; simpl; rewrite ?Es, ?Er, ?Ed; repeat split; reflexivity.
Qed.

Lemma unread_to_set_read (user : Z) (m : Message) :
  unread_to user (set_read m true) = false.
Proof. unfold unread_to. simpl. apply andb_false_r. Qed.

Lemma unread_from_to_unread_to (sender user : Z) (m : Message) :
  unread_from_to sender user m = true -> unread_to user m = true.
Proof.
  unfold unread_from_to, unread_to.
  rewrite !andb_true_iff. tauto.
Qed.

Lemma unread_after_mark (sender user : Z) (l : list Message) :
  (length (filter (unread_to user)
             (map (fun m => if unread_from_to sender user m then set_read m true else m) l))
   + length (filter (unread_from_to sender user) l)
   = length (filter (unread_to user) l))%nat.
Proof.
  induction l as [|m l IH]; cbn [map filter length]; [reflexivity|].
  destruct (unread_from_to sender user m) eqn:E.
  - rewrite unread_to_set_read, (unread_from_to_unread_to _ _ _ E).
    cbn [length]. lia.
  - destruct (unread_to user m); cbn [length]; lia.
Qed.

Lemma none_unread_after_mark (sender user : Z) (l : list Message) :
  filter (unread_from_to sender user)
    (map (fun m => if unread_from_to sender user m then set_read m true else m) l) = [].
Proof.
  induction l as [|m l IH]; simpl; [reflexivity|].
  destruct (unread_from_to sender user m) eqn:E.
  - unfold unread_from_to in *. simpl.
    rewrite andb_false_r. exact IH.
  - rewrite E. exact IH.
Qed.

Lemma unread_from_to_sent (s : db) (now : Z) (sender user : Z) (text : string) :
  filter (unread_from_to sender user)
    (messages (fst (send_message s now sender user text)))
  = filter (unread_from_to sender user) (messages s)
    ++ [snd (send_message s now sender user text)].
Proof.
  unfold send_message. cbn [fst snd set_messages messages].
  rewrite filter_app. f_equal.
  cbn [filter]. unfold unread_from_to. cbn [sender_id receiver_id read].
  now rewrite !Z.eqb_refl.
Qed.

(** C7.  [mark_messages_as_read(B, A)] returns the number of messages
    from A to B that were unread; row by row it keeps every column but
    [read], which it sets on the messages from A to B and leaves as it
    was on the others; no other table changes; afterwards
    [get_unread_messages_count(B)] is smaller by the number returned and
    no message from A to B is unread; and after A sends three messages
    to B the call returns three more than it would have before them. *)
Theorem mark_messages_as_read_counts (s : db) (user sender : Z) :
  let s' := fst (mark_messages_as_read s user sender) in
  let n := snd (mark_messages_as_read s user sender) in
  n = length (filter (unread_from_to sender user) (messages s))
  /\ Forall2 (marks_read sender user) (messages s) (messages s')
  /\ set_messages s' (messages s) = s
  /\ (get_unread_messages_count s' user + n = get_unread_messages_count s user)%nat
  /\ filter (unread_from_to sender user) (messages s') = []
  /\ snd (mark_messages_as_read s' user sender) = 0%nat
  /\ (forall t1 t2 t3 c1 c2 c3,
        let s1 := fst (send_message s t1 sender user c1) in
        let s2 := fst (send_message s1 t2 sender user c2) in
        let s3 := fst (send_message s2 t3 sender user c3) in
        snd (mark_messages_as_read s3 user sender) = (3 + n)%nat).
Proof.
  intros s' n. repeat split.
  - apply mark_rows.
  - destruct s; reflexivity.
  - apply unread_after_mark.
  - apply none_unread_after_mark.
  - unfold mark_messages_as_read at 1. cbn [snd].
    unfold s', mark_messages_as_read. cbn [fst set_messages messages].
    now rewrite none_unread_after_mark.
  - intros t1 t2 t3 c1 c2 c3 s1 s2 s3.
    unfold mark_messages_as_read at 1. cbn [snd].
    unfold s3, s2, s1. rewrite !unread_from_to_sent, !length_app.
    cbn [length]. unfold n, mark_messages_as_read. cbn [snd]. lia.
Qed.

(** The unread-accounting example on the empty store: user 1 sends three
    messages to user 2, who marks them read. *)
Lemma mark_messages_as_read_counts_witness :
  let s1 := fst (send_message empty_db 10 1 2 "a") in
  let s2 := fst (send_message s1 20 1 2 "b") in
  let s3 := fst (send_message s2 30 1 2 "c") in
  get_unread_messages_count s3 2 = 3%nat
  /\ snd (mark_messages_as_read s3 2 1) = 3%nat
  /\ get_unread_messages_count (fst (mark_messages_as_read s3 2 1)) 2 = 0%nat.
Proof.
  intros s1 s2 s3.
  destruct (mark_messages_as_read_counts empty_db 2 1)
    as (_ & _ & _ & _ & _ & _ & Hsent).
  destruct (mark_messages_as_read_counts s3 2 1) as (_ & _ & _ & Hless & _).
  split; [reflexivity|]. split; [exact (Hsent 10 20 30 "a" "b" "c")|].
  change (get_unread_messages_count s3 2) with 3%nat in Hless.
  change (snd (mark_messages_as_read s3 2 1)) with 3%nat in Hless.
  lia.
Defined.

End Messaging.

(** ** Likes *)

Section Likes.
Import PostService.

Lemma first_filter_none {A : Type} (f : A -> bool) (l : list A) :
  first (filter f l) = None -> filter f l = [].
Proof. unfold first. destruct (filter f l); [reflexivity | discriminate]. Qed.

Lemma has_liked_post_after_like (s : db) (now pid uid : Z) :
  first (filter (like_of pid uid) (likes (fst (like_post s now pid uid))))
  = Some (snd (like_post s now pid uid)).
Proof.
  unfold like_post.
  destruct (first (filter (like_of pid uid) (likes s))) as [l|] eqn:E.
  - exact E.
  - cbn [fst snd set_likes likes].
    rewrite filter_app, (first_filter_none _ _ E).
    cbn [filter app]. unfold like_of at 1. cbn [like_post_id like_user_id].
    now rewrite !Z.eqb_refl.
Qed.

(** C2, as the code has it.  A second [like_post(p, u)] changes nothing
    and returns the row of the first.  When no Like row for (p, u)
    exists before the first call, the two calls leave exactly one row
    for the pair and [get_post_likes_count(p)] is larger by exactly 1;
    when one exists already, [like_post] changes nothing and the count
    stays as it was.  [unlike_post(p, u)] with no row for (p, u) returns
    false and leaves the store unchanged. *)
Theorem like_post_idempotent (s : db) (t1 t2 pid uid : Z) :
  let s1 := fst (like_post s t1 pid uid) in
  let s2 := fst (like_post s1 t2 pid uid) in
  like_post s1 t2 pid uid = (s1, snd (like_post s t1 pid uid))
  /\ (has_liked_post s pid uid = false ->
      length (filter (like_of pid uid) (likes s2)) = 1%nat
      /\ get_post_likes_count s2 pid = S (get_post_likes_count s pid)
      /\ unlike_post s pid uid = (s, false))
  /\ (has_liked_post s pid uid = true ->
      s2 = s /\ get_post_likes_count s2 pid = get_post_likes_count s pid).
Proof.
  intros s1 s2.
  assert (H2 : like_post s1 t2 pid uid = (s1, snd (like_post s t1 pid uid))).
  { unfold like_post at 1. unfold s1.
    now rewrite has_liked_post_after_like. }
  split; [exact H2|].
  unfold s2. rewrite H2. cbn [fst]. unfold s1, has_liked_post, like_post, unlike_post.
  destruct (first (filter (like_of pid uid) (likes s))) as [l|] eqn:E;
    split; intros H; try discriminate.
  - cbn [fst]. split; reflexivity.
  - cbn [fst set_likes likes]. unfold get_post_likes_count. cbn [likes].
    repeat split.
    + rewrite filter_app, (first_filter_none _ _ E).
      cbn [filter app]. unfold like_of. cbn [like_post_id like_user_id].
      now rewrite !Z.eqb_refl.
    + cbn [likes set_likes]. rewrite filter_app, length_app.
      cbn [filter like_post_id]. rewrite Z.eqb_refl. cbn [length]. lia.
Qed.

Lemma like_post_idempotent_witness :
  let s := set_likes empty_db [mkLike 1 7 4 0] in
  get_post_likes_count (fst (like_post (fst (like_post s 5 7 3)) 6 7 3)) 7 = 2%nat
  /\ unlike_post s 7 3 = (s, false).
Proof.
  intros s.
  destruct (like_post_idempotent s 5 6 7 3) as (_ & H & _).
  destruct (H eq_refl) as (_ & Hc & Hu).
  split; [exact Hc | exact Hu].
Defined.

(** C2 as stated fails where user 3 has already liked post 7: after two
    more calls the count is what it was, not larger by 1. *)
Lemma like_post_twice_already_liked :
  let s := set_likes empty_db [mkLike 1 7 3 0] in
  let s2 := fst (like_post (fst (like_post s 5 7 3)) 6 7 3) in
  get_post_likes_count s 7 = 1%nat
  /\ get_post_likes_count s2 7 = 1%nat
  /\ get_post_likes_count s2 7 <> S (get_post_likes_count s 7).
Proof. repeat split. discriminate. Qed.

End Likes.

(** ** The feed *)

Section Feed.
Import PostService UserService.

Lemma sorted_newest_first (l : list Post) :
  StronglySorted (key_le (fun p => - post_created_at p)) l ->
  StronglySorted newest_first l.
Proof.
  induction 1 as [|p l Hl IH Hp]; constructor; [exact IH|].
  eapply Forall_impl; [|exact Hp].
  unfold key_le, newest_first. intros; lia.
Qed.

Lemma existsb_connection_ids (ids : list Z) (uid a : Z) :
  existsb (Z.eqb a) (ids ++ [uid]) = (a =? uid) || existsb (Z.eqb a) ids.
Proof.
  rewrite existsb_app. cbn [existsb]. rewrite orb_false_r. apply orb_comm.
Qed.

Lemma existsb_map_id (l : list User) (a : Z) :
  existsb (Z.eqb a) (map user_id l) = existsb (fun v => user_id v =? a) l.
Proof.
  induction l as [|v l IH]; simpl; [reflexivity|].
  now rewrite IH, (Z.eqb_sym a).
Qed.

Lemma in_feed_of_spec (s : db) (uid : Z) (p : Post) :
  in_feed_of s uid p = true <->
  author_id p = uid
  \/ exists v, In v (get_user_connections s uid) /\ user_id v = author_id p.
Proof.
  unfold in_feed_of. rewrite orb_true_iff, Z.eqb_eq, existsb_exists.
  setoid_rewrite Z.eqb_eq. tauto.
Qed.

(** A page of the feed is a window of the selected posts, newest first. *)
Lemma get_feed_posts_window (s : db) (uid : Z) (skip lim : option nat) (user : User) :
  get_user_by_id s uid = Some user ->
  get_feed_posts s uid skip lim
  = limit (default_arg 20%nat lim)
      (offset (default_arg 0%nat skip)
         (order_by_desc post_created_at (filter (in_feed_of s uid) (posts s)))).
Proof.
  intros Hu. unfold get_feed_posts. unfold get_user_by_id in Hu. rewrite Hu.
  do 3 f_equal. apply filter_ext. intros p.
  unfold in_feed_of, get_user_connections, get_user_by_id.
  now rewrite Hu, existsb_connection_ids, existsb_map_id.
Qed.

Lemma get_feed_posts_page_In (s : db) (uid : Z) (skip lim : option nat) (user : User)
    (p : Post) :
  get_user_by_id s uid = Some user ->
  In p (get_feed_posts s uid skip lim) ->
  In p (posts s) /\ in_feed_of s uid p = true.
Proof.
  intros Hu Hp. rewrite (get_feed_posts_window _ _ _ _ _ Hu) in Hp.
  apply In_limit, In_offset in Hp. unfold order_by_desc in Hp.
  now rewrite order_by_asc_In, filter_In in Hp.
Qed.

Lemma get_feed_posts_whole_In (s : db) (uid : Z) (user : User) (p : Post) :
  get_user_by_id s uid = Some user ->
  In p (posts s) -> in_feed_of s uid p = true ->
  In p (get_feed_posts s uid (Some 0%nat) (Some (length (posts s)))).
Proof.
  intros Hu Hp Hf. rewrite (get_feed_posts_window _ _ _ _ _ Hu).
  cbn [default_arg]. unfold limit, offset. cbn [skipn].
  rewrite firstn_all2.
  - unfold order_by_desc. rewrite order_by_asc_In, filter_In. now split.
  - unfold order_by_desc.
    rewrite (Permutation_length (order_by_asc_perm _ _)). apply filter_length_le.
Qed.

(** X19.  For an existing user A, [get_feed_posts(A, skip, limit)] is the
    window of [limit] rows after the first [skip] (20 and 0 when
    omitted) of A's whole feed; the whole feed holds exactly the posts
    written by A or by one of [get_user_connections(A)], the users that
    A's own rows of the association table name, each post as often as
    the table holds it, newest first.  So a post by a user who is
    neither A nor in [get_user_connections(A)] is on no page, a post by
    a user in [get_user_connections(A)] is in the whole feed, and every
    page is ordered newest first. *)
Theorem get_feed_posts_composition (s : db) (uid : Z) (skip lim : option nat)
    (user : User) :
  get_user_by_id s uid = Some user ->
  let feed := get_feed_posts s uid (Some 0%nat) (Some (length (posts s))) in
  let page := get_feed_posts s uid skip lim in
  page = firstn (default_arg 20%nat lim) (skipn (default_arg 0%nat skip) feed)
  /\ Permutation feed (filter (in_feed_of s uid) (posts s))
  /\ (forall p, In p feed <->
                In p (posts s) /\
                (author_id p = uid \/
                 exists v, In v (get_user_connections s uid) /\ user_id v = author_id p))
  /\ StronglySorted newest_first feed
  /\ StronglySorted newest_first page
  /\ (forall p, In p page ->
                In p (posts s) /\
                (author_id p = uid \/
                 exists v, In v (get_user_connections s uid) /\ user_id v = author_id p)).
Proof.
  intros Hu feed page.
  set (all := order_by_desc post_created_at (filter (in_feed_of s uid) (posts s))).
  assert (Hsel : filter
                   (fun p => existsb (Z.eqb (author_id p))
                               (map user_id (User_connections s user) ++ [uid]))
                   (posts s)
                 = filter (in_feed_of s uid) (posts s)).
  { apply filter_ext. intros p. unfold in_feed_of, get_user_connections.
    now rewrite Hu, existsb_connection_ids, existsb_map_id. }
  assert (Hpage : page = firstn (default_arg 20%nat lim)
                           (skipn (default_arg 0%nat skip) all)).
  { unfold page, get_feed_posts. unfold get_user_by_id in Hu.
    now rewrite Hu, Hsel. }
  assert (HP : Permutation all (filter (in_feed_of s uid) (posts s)))
    by apply order_by_asc_perm.
  assert (Hfeed : feed = all).
  { unfold feed, get_feed_posts. unfold get_user_by_id in Hu.
    rewrite Hu, Hsel. cbn [default_arg]. unfold limit, offset.
    cbn [skipn]. apply firstn_all2. fold all.
    rewrite (Permutation_length HP). apply filter_length_le. }
  assert (HS : StronglySorted newest_first all)
    by apply sorted_newest_first, order_by_asc_sorted.
  assert (Hin : forall p, In p all <->
                In p (posts s) /\
                (author_id p = uid \/
                 exists v, In v (get_user_connections s uid) /\ user_id v = author_id p)).
  { intros p. unfold all, order_by_desc.
    now rewrite order_by_asc_In, filter_In, in_feed_of_spec. }
  rewrite Hfeed. repeat apply conj; try assumption.
  - rewrite Hpage.
    apply sorted_newest_first, sorted_firstn, sorted_skipn, order_by_asc_sorted.
  - intros p Hp. apply Hin. rewrite Hpage in Hp.
    eapply In_offset, In_limit. exact Hp.
Qed.

(** The feed at a concrete store: the association table holds the row
    (1, 2) and none for user 3; each of the three has written a post. *)
Lemma get_feed_posts_composition_witness :
  let u1 := mkUser 1 (Some "a@x") (Some "a") None None None None None None None in
  let u2 := mkUser 2 (Some "b@x") (Some "b") None None None None None None None in
  let u3 := mkUser 3 (Some "c@x") (Some "c") None None None None None None None in
  let p1 := mkPost 1 1 "mine" None 10 in
  let p2 := mkPost 2 2 "friend" None 30 in
  let p3 := mkPost 3 3 "stranger" None 20 in
  let s := mkDb [u1; u2; u3] [(1, 2)] [] [p1; p2; p3] [] [] in
  get_feed_posts s 1 None None = [p2; p1]
  /\ get_feed_posts s 1 (Some 1%nat) (Some 5%nat) = [p1]
  /\ StronglySorted newest_first (get_feed_posts s 1 None None).
Proof.
  intros u1 u2 u3 p1 p2 p3 s.
  repeat split.
  apply (get_feed_posts_composition s 1 None None u1 eq_refl).
Defined.

End Feed.

(** ** Connection requests *)

Section Connections.
Import UserService.

Lemma first_filter_some {A : Type} (f : A -> bool) (l : list A) (x : A) :
  first (filter f l) = Some x -> In x l /\ f x = true.
Proof.
  unfold first. destruct (filter f l) as [|y l'] eqn:E; [discriminate|].
  intros [= ->]. apply filter_In. rewrite E. now left.
Qed.

Lemma first_filter_absent {A : Type} (f : A -> bool) (l : list A) :
  (forall x, In x l -> f x = false) -> first (filter f l) = None.
Proof.
  intros H. destruct (first (filter f l)) as [x|] eqn:E; [|reflexivity].
  apply first_filter_some in E as [Hin Hf].
  rewrite (H _ Hin) in Hf. discriminate.
Qed.

Lemma get_user_by_id_some (s : db) (uid : Z) (u : User) :
  get_user_by_id s uid = Some u -> In u (users s) /\ user_id u = uid.
Proof.
  unfold get_user_by_id. intros H.
  apply first_filter_some in H as [Hin Hid].
  now apply Z.eqb_eq in Hid.
Qed.

Lemma get_user_by_id_none (s : db) (uid : Z) :
  (forall u, In u (users s) -> user_id u <> uid) -> get_user_by_id s uid = None.
Proof.
  intros H. apply first_filter_absent. intros u Hu.
  apply Z.eqb_neq. now apply H.
Qed.

(** A primary key finds its row. *)
Lemma first_by_key {A : Type} (id : A -> Z) (l : list A) (r : A) :
  In r l -> NoDup (map id l) ->
  first (filter (fun x => id x =? id r) l) = Some r.
Proof.
  induction l as [|y l IH]; simpl; [contradiction|].
  intros [->|Hin] Hnd.
  - now rewrite Z.eqb_refl.
  - inversion Hnd as [|? ? Hy Hnd']; subst.
    destruct (id y =? id r) eqn:E.
    + apply Z.eqb_eq in E. exfalso. apply Hy.
      rewrite E. now apply in_map.
    + now apply IH.
Qed.

Lemma next_id_fresh {A : Type} (id : A -> Z) (l : list A) (r : A) :
  In r l -> id r < next_id id l.
Proof.
  unfold next_id. destruct l as [|y l]; [contradiction|].
  assert (H : forall x, In x (y :: l) ->
                        id x <= fold_right (fun x m => Z.max (id x) m) (id y) l).
  { induction l as [|z l IH]; simpl.
    - intros x [<-|[]]. lia.
    - intros x [<-|[<-|Hx]].
      + specialize (IH y (or_introl eq_refl)). lia.
      + lia.
      + specialize (IH x (or_intror Hx)). lia. }
  intros Hr. specialize (H r Hr). lia.
Qed.

Lemma append_connection_adds (a b : Z) (rows : list (Z * Z)) :
  existsb (fun c => (fst c =? a) && (snd c =? b)) (rows ++ [(a, b)]) = true.
Proof.
  rewrite existsb_app. cbn [existsb fst snd].
  now rewrite !Z.eqb_refl, orb_true_r.
Qed.

Lemma append_connection_other (a b a' b' : Z) (rows : list (Z * Z)) :
  a' <> a ->
  existsb (fun c => (fst c =? a') && (snd c =? b')) (rows ++ [(a, b)])
  = existsb (fun c => (fst c =? a') && (snd c =? b')) rows.
Proof.
  intros Ha. rewrite existsb_app. cbn [existsb fst snd].
  apply not_eq_sym, Z.eqb_neq in Ha. now rewrite Ha, !orb_false_r.
Qed.

(** No row (u, v) is stored when [v], a user of the table, is not among
    the connections of [u]. *)
Lemma connection_row_absent (s : db) (ua ub : User) :
  In ub (users s) ->
  (forall v, In v (User_connections s ua) -> user_id v <> user_id ub) ->
  existsb (fun c => (fst c =? user_id ua) && (snd c =? user_id ub)) (connections s)
  = false.
Proof.
  intros Hin Hnot. apply not_true_is_false. intros E.
  apply (Hnot ub); [|reflexivity].
  apply filter_In. now split.
Qed.

(** What [accept_connection_request] does with a pending request it
    finds, whose sender and receiver exist. *)
Lemma accept_found (s : db) (rid : Z) (rq : ConnectionRequest) (ua ub : User) :
  first (filter (fun r => request_id r =? rid) (connection_requests s)) = Some rq ->
  status rq = "pending" ->
  get_user_by_id s (request_sender_id rq) = Some ua ->
  get_user_by_id s (request_receiver_id rq) = Some ub ->
  accept_connection_request s rid
  = if existsb (fun c => (fst c =? user_id ua) && (snd c =? user_id ub)) (connections s)
    then Raise IntegrityError
    else Ok (mkDb (users s) (connections s ++ [(user_id ua, user_id ub)])
               (store_request (set_status rq "accepted") (connection_requests s))
               (posts s) (likes s) (messages s),
             Some (set_status rq "accepted")).
Proof.
  intros Hr Hst Ha Hb. unfold accept_connection_request, append_connection.
  rewrite Hr, Hst, Ha, Hb. cbn [String.eqb Ascii.eqb Bool.eqb negb deref bind].
  now destruct (existsb _ (connections s)).
Qed.

(** C1, what the code does.  Accepting a pending request from A to B,
    two distinct existing users of whom B is not yet among A's
    connections (request ids being a primary key), succeeds and puts B
    among [get_user_connections(A)], but leaves [get_user_connections(B)]
    as it was: the row for the reverse direction is not written, so A is
    among B's connections afterwards only if it was before. *)
Theorem accept_connection_request_one_way (s : db) (r : ConnectionRequest)
    (ua ub : User) :
  In r (connection_requests s) ->
  NoDup (map request_id (connection_requests s)) ->
  status r = "pending" ->
  get_user_by_id s (request_sender_id r) = Some ua ->
  get_user_by_id s (request_receiver_id r) = Some ub ->
  request_sender_id r <> request_receiver_id r ->
  (forall v, In v (get_user_connections s (request_sender_id r)) ->
             user_id v <> request_receiver_id r) ->
  exists s',
    accept_connection_request s (request_id r)
    = Ok (s', Some (set_status r "accepted"))
    /\ In ub (get_user_connections s' (request_sender_id r))
    /\ get_user_connections s' (request_receiver_id r)
       = get_user_connections s (request_receiver_id r).
Proof.
  intros Hin Hnd Hst Ha Hb Hab Hnew.
  destruct (get_user_by_id_some _ _ _ Ha) as [Hain Haid].
  destruct (get_user_by_id_some _ _ _ Hb) as [Hbin Hbid].
  rewrite (accept_found s _ r ua ub (first_by_key request_id _ _ Hin Hnd) Hst Ha Hb).
  rewrite connection_row_absent.
  - eexists. split; [reflexivity|].
    unfold get_user_connections, get_user_by_id in *. cbn [users].
    rewrite Ha, Hb. unfold User_connections. cbn [users connections].
    split.
    + apply filter_In. split; [exact Hbin | apply append_connection_adds].
    + apply filter_ext. intros v. apply append_connection_other. congruence.
  - exact Hbin.
  - unfold get_user_connections in Hnew. rewrite Ha in Hnew.
    intros v Hv. rewrite Hbid. now apply Hnew.
Qed.

(** The failing input of C1: users 1 and 2, and the pending request 1
    from 1 to 2.  After the accept user 2 is a connection of user 1 and
    user 2 has no connection. *)
Lemma accept_connection_request_one_way_witness :
  let u1 := mkUser 1 (Some "a@x") (Some "a") None None None None None None None in
  let u2 := mkUser 2 (Some "b@x") (Some "b") None None None None None None None in
  let r := mkConnectionRequest 1 1 2 "pending" 0 in
  let s := mkDb [u1; u2] [] [r] [] [] [] in
  exists s',
    accept_connection_request s 1 = Ok (s', Some (set_status r "accepted"))
    /\ get_user_connections s' 1 = [u2]
    /\ get_user_connections s' 2 = [].
Proof.
  intros u1 u2 r s.
  destruct (accept_connection_request_one_way s r u1 u2)
    as (s' & Hs' & _ & H2);
    try reflexivity.
  - now left.
  - repeat constructor. simpl. tauto.
  - discriminate.
  - intros v [].
  - exists s'. split; [exact Hs'|]. split; [|exact H2].
    injection Hs' as <-. reflexivity.
Defined.

(** C5.  A request in the table whose status is accepted or rejected is
    settled for good: accepting or rejecting it returns [None] and
    leaves the store, with its status and the connection rows, as it
    was. *)
Theorem settled_request_is_terminal (s : db) (r : ConnectionRequest) :
  In r (connection_requests s) ->
  NoDup (map request_id (connection_requests s)) ->
  status r = "accepted" \/ status r = "rejected" ->
  accept_connection_request s (request_id r) = Ok (s, None)
  /\ reject_connection_request s (request_id r) = (s, None).
Proof.
  intros Hin Hnd Hst.
  unfold accept_connection_request, reject_connection_request.
  rewrite (first_by_key request_id _ _ Hin Hnd).
  destruct Hst as [-> | ->]; split; reflexivity.
Qed.

Lemma settled_request_is_terminal_witness :
  let r1 := mkConnectionRequest 1 1 2 "accepted" 0 in
  let r2 := mkConnectionRequest 2 3 1 "rejected" 5 in
  let s := mkDb [] [(1, 2)] [r1; r2] [] [] [] in
  (accept_connection_request s 1 = Ok (s, None)
   /\ reject_connection_request s 1 = (s, None))
  /\ (accept_connection_request s 2 = Ok (s, None)
      /\ reject_connection_request s 2 = (s, None)).
Proof.
  intros r1 r2 s. split.
  - apply (settled_request_is_terminal s r1).
    + simpl; auto.
    + repeat constructor; simpl; intuition discriminate.
    + now left.
  - apply (settled_request_is_terminal s r2).
    + simpl; auto.
    + repeat constructor; simpl; intuition discriminate.
    + now right.
Defined.

Lemma pending_from_to_spec (a b : Z) (r : ConnectionRequest) :
  pending_from_to a b r = true <->
  request_sender_id r = a /\ request_receiver_id r = b /\ status r = "pending".
Proof.
  unfold pending_from_to.
  rewrite !andb_true_iff, !Z.eqb_eq, String.eqb_eq. tauto.
Qed.

(** X18.  [send_connection_request(S, R)]: when the table holds a pending
    request from S to R, the call returns such a request of the table
    and leaves the store as it was.  When it holds none and S exists:
    if R is among [get_user_connections(S)], the users that S's own rows
    of the association table name, the call returns [None] and leaves
    the store as it was; otherwise it appends one request from S to R
    with status pending, a fresh key and the current time, and returns
    it.  Whatever a call returns, calling again in the store it left
    returns the same and changes nothing. *)
Theorem send_connection_request_cases (s : db) (now : Z) (sid rid : Z) :
  ((exists r, In r (connection_requests s) /\ pending_from_to sid rid r = true) ->
   exists r,
     send_connection_request s now sid rid = Ok (s, Some r)
     /\ In r (connection_requests s)
     /\ request_sender_id r = sid /\ request_receiver_id r = rid
     /\ status r = "pending")
  /\ (forall sender,
        (forall r, In r (connection_requests s) -> pending_from_to sid rid r = false) ->
        get_user_by_id s sid = Some sender ->
        (exists v, In v (get_user_connections s sid) /\ user_id v = rid) ->
        send_connection_request s now sid rid = Ok (s, None))
  /\ (forall sender,
        (forall r, In r (connection_requests s) -> pending_from_to sid rid r = false) ->
        get_user_by_id s sid = Some sender ->
        (forall v, In v (get_user_connections s sid) -> user_id v <> rid) ->
        exists request,
          send_connection_request s now sid rid
          = Ok (set_connection_requests s (connection_requests s ++ [request]),
                Some request)
          /\ request_sender_id request = sid
          /\ request_receiver_id request = rid
          /\ status request = "pending"
          /\ request_created_at request = now
          /\ ~ In (request_id request) (map request_id (connection_requests s)))
  /\ (forall s1 o later,
        send_connection_request s now sid rid = Ok (s1, o) ->
        send_connection_request s1 later sid rid = Ok (s1, o)).
Proof.
  repeat apply conj.
  - intros (r0 & Hin0 & Hp0).
    unfold send_connection_request.
    destruct (first (filter (pending_from_to sid rid) (connection_requests s)))
      as [r|] eqn:E.
    + apply first_filter_some in E as [Hin Hp].
      apply pending_from_to_spec in Hp as (? & ? & ?).
      exists r. repeat split; assumption.
    + apply first_filter_none in E.
      assert (In r0 (filter (pending_from_to sid rid) (connection_requests s)))
        by (apply filter_In; now split).
      rewrite E in H. contradiction.
  - intros sender Hnone Hu (v & Hv & Hid).
    unfold send_connection_request.
    rewrite (first_filter_absent _ _ Hnone), Hu. cbn [deref bind].
    unfold get_user_connections in Hv. rewrite Hu in Hv.
    replace (existsb _ (User_connections s sender)) with true; [reflexivity|].
    symmetry. apply existsb_exists. exists v. split; [exact Hv|].
    now apply Z.eqb_eq.
  - intros sender Hnone Hu Hnot.
    unfold send_connection_request.
    rewrite (first_filter_absent _ _ Hnone), Hu. cbn [deref bind].
    unfold get_user_connections in Hnot. rewrite Hu in Hnot.
    replace (existsb _ (User_connections s sender)) with false.
    + eexists. split; [reflexivity|]. cbn. repeat split.
      intros Hin. apply in_map_iff in Hin as (x & Hx & Hxin).
      apply (next_id_fresh request_id) in Hxin. lia.
    + symmetry. apply not_true_is_false. intros H.
      apply existsb_exists in H as (v & Hv & Hid).
      apply Z.eqb_eq in Hid. exact (Hnot v Hv Hid).
  - intros s1 o later. unfold send_connection_request at 1.
    destruct (first (filter (pending_from_to sid rid) (connection_requests s)))
      as [r|] eqn:E.
    + intros [= <- <-]. unfold send_connection_request. now rewrite E.
    + destruct (get_user_by_id s sid) as [sender|] eqn:Hu; [|discriminate].
      cbn [deref bind].
      destruct (existsb _ (User_connections s sender)) eqn:Hc.
      * intros [= <- <-]. unfold send_connection_request.
        rewrite E, Hu. cbn [deref bind]. now rewrite Hc.
      * intros [= <- <-]. unfold send_connection_request.
        cbn [set_connection_requests connection_requests].
        rewrite filter_app, (first_filter_none _ _ E).
        cbn [filter app]. unfold pending_from_to at 1.
        cbn [request_sender_id request_receiver_id status].
        rewrite !Z.eqb_refl. reflexivity.
Qed.

(** The three cases at a concrete store: the row (1, 2) in the
    association table, a pending request from 1 to 3, nothing between 1
    and 4. *)
Lemma send_connection_request_cases_witness :
  let u n := mkUser n None None None None None None None None None in
  let r := mkConnectionRequest 1 1 3 "pending" 0 in
  let s := mkDb [u 1; u 2; u 3; u 4] [(1, 2)] [r] [] [] [] in
  let r' := mkConnectionRequest 2 1 4 "pending" 9 in
  send_connection_request s 9 1 3 = Ok (s, Some r)
  /\ send_connection_request s 9 1 2 = Ok (s, None)
  /\ send_connection_request s 9 1 4
     = Ok (set_connection_requests s [r; r'], Some r')
  /\ send_connection_request (set_connection_requests s [r; r']) 11 1 4
     = Ok (set_connection_requests s [r; r'], Some r').
Proof.
  intros u r s r'.
  destruct (send_connection_request_cases s 9 1 2) as (_ & Hconn & _ & _).
  destruct (send_connection_request_cases s 9 1 4) as (_ & _ & _ & Hagain).
  split; [reflexivity|]. split; [|split; [reflexivity|]].
  - apply (Hconn (u 1)).
    + intros x [<-|[]]. reflexivity.
    + reflexivity.
    + exists (u 2). split; [now left | reflexivity].
  - apply Hagain. reflexivity.
Defined.

(** C10.  [send_connection_request] needs its sender: when no user has
    the id [sid] and no request from [sid] to [rid] is pending, the call
    raises the [AttributeError] of [sender.connections] on [None]
    rather than returning; when the sender exists, the call returns. *)
Theorem send_connection_request_requires_sender (s : db) (now : Z) (sid rid : Z) :
  ((forall u, In u (users s) -> user_id u <> sid) ->
   (forall r, In r (connection_requests s) -> pending_from_to sid rid r = false) ->
   send_connection_request s now sid rid = Raise AttributeError)
  /\ (forall sender,
        get_user_by_id s sid = Some sender ->
        exists s' o, send_connection_request s now sid rid = Ok (s', o)).
Proof.
  split.
  - intros Hu Hnone. unfold send_connection_request.
    now rewrite (first_filter_absent _ _ Hnone), (get_user_by_id_none _ _ Hu).
  - intros sender Hu. unfold send_connection_request. rewrite Hu.
    destruct (first _); [eauto|]. cbn [deref bind].
    destruct (existsb _ _); eauto.
Qed.

Lemma send_connection_request_requires_sender_witness :
  let u := mkUser 1 None None None None None None None None None in
  let s := mkDb [u] [] [mkConnectionRequest 1 7 1 "rejected" 0] [] [] [] in
  send_connection_request s 3 7 1 = Raise AttributeError
  /\ exists s' o, send_connection_request s 3 1 7 = Ok (s', o).
Proof.
  intros u s. split.
  - apply (send_connection_request_requires_sender s 3 7 1).
    + intros x [<-|[]]. discriminate.
    + intros x [<-|[]]. reflexivity.
  - apply (send_connection_request_requires_sender s 3 1 7) with (sender := u).
    reflexivity.
Defined.

End Connections.

(** ** What the single row of an accepted request leaves out *)

Section OneWay.
Import PostService UserService.

(** The store an accept leaves: one row, from the sender to the
    receiver, whose own connections are what they were. *)
Lemma accept_stores_one_row (s : db) (r : ConnectionRequest) (ua ub : User) :
  In r (connection_requests s) ->
  NoDup (map request_id (connection_requests s)) ->
  status r = "pending" ->
  get_user_by_id s (request_sender_id r) = Some ua ->
  get_user_by_id s (request_receiver_id r) = Some ub ->
  request_sender_id r <> request_receiver_id r ->
  (forall v, In v (get_user_connections s (request_sender_id r)) ->
             user_id v <> request_receiver_id r) ->
  let s1 := mkDb (users s)
              (connections s ++ [(request_sender_id r, request_receiver_id r)])
              (store_request (set_status r "accepted") (connection_requests s))
              (posts s) (likes s) (messages s) in
  accept_connection_request s (request_id r) = Ok (s1, Some (set_status r "accepted"))
  /\ In ub (get_user_connections s1 (request_sender_id r))
  /\ get_user_connections s1 (request_receiver_id r)
     = get_user_connections s (request_receiver_id r).
Proof.
  intros Hin Hnd Hst Ha Hb Hab Hnew s1.
  destruct (get_user_by_id_some _ _ _ Ha) as [Hain Haid].
  destruct (get_user_by_id_some _ _ _ Hb) as [Hbin Hbid].
  rewrite (accept_found s _ r ua ub (first_by_key request_id _ _ Hin Hnd) Hst Ha Hb).
  rewrite connection_row_absent.
  - rewrite Haid, Hbid. split; [reflexivity|].
    unfold get_user_connections.
    change (get_user_by_id s1) with (get_user_by_id s). rewrite Ha, Hb.
    unfold User_connections, s1. cbn [users connections]. split.
    + apply filter_In. split; [exact Hbin|].
      rewrite Haid, Hbid. apply append_connection_adds.
    + apply filter_ext. intros v. apply append_connection_other. congruence.
  - exact Hbin.
  - unfold get_user_connections in Hnew. rewrite Ha in Hnew.
    intros v Hv. rewrite Hbid. now apply Hnew.
Qed.

(** C4, where the code departs from it.  Let the pending request [r]
    from A to B, the only pending one from A to B, be accepted, A and B
    being distinct existing users neither of whom is among the other's
    connections, with no request pending from B to A.  The accept
    succeeds and makes B a connection of A.  From A's side the two are
    then seen as connected: [send_connection_request(A, B)] returns
    [None] and stores nothing.  From B's side they are not:
    [send_connection_request(B, A)] appends a new pending request from B
    to A and returns it, although the two are already connected. *)
Theorem send_connection_request_after_accept (s : db) (now : Z)
    (r : ConnectionRequest) (ua ub : User) :
  In r (connection_requests s) ->
  NoDup (map request_id (connection_requests s)) ->
  status r = "pending" ->
  get_user_by_id s (request_sender_id r) = Some ua ->
  get_user_by_id s (request_receiver_id r) = Some ub ->
  request_sender_id r <> request_receiver_id r ->
  (forall v, In v (get_user_connections s (request_sender_id r)) ->
             user_id v <> request_receiver_id r) ->
  (forall v, In v (get_user_connections s (request_receiver_id r)) ->
             user_id v <> request_sender_id r) ->
  (forall x, In x (connection_requests s) ->
             pending_from_to (request_sender_id r) (request_receiver_id r) x = true ->
             x = r) ->
  (forall x, In x (connection_requests s) ->
             pending_from_to (request_receiver_id r) (request_sender_id r) x = false) ->
  exists s1 request,
    accept_connection_request s (request_id r) = Ok (s1, Some (set_status r "accepted"))
    /\ In ub (get_user_connections s1 (request_sender_id r))
    /\ send_connection_request s1 now (request_sender_id r) (request_receiver_id r)
       = Ok (s1, None)
    /\ send_connection_request s1 now (request_receiver_id r) (request_sender_id r)
       = Ok (set_connection_requests s1 (connection_requests s1 ++ [request]),
             Some request)
    /\ request_sender_id request = request_receiver_id r
    /\ request_receiver_id request = request_sender_id r
    /\ status request = "pending"
    /\ ~ In (request_id request) (map request_id (connection_requests s1)).
Proof.
  intros Hin Hnd Hst Ha Hb Hab Hnew Hrev Honly Hnone.
  destruct (accept_stores_one_row s r ua ub Hin Hnd Hst Ha Hb Hab Hnew)
    as (Haccept & Hconn & Hkept).
  set (s1 := mkDb (users s)
               (connections s ++ [(request_sender_id r, request_receiver_id r)])
               (store_request (set_status r "accepted") (connection_requests s))
               (posts s) (likes s) (messages s)) in *.
  set (request := mkConnectionRequest (next_id request_id (connection_requests s1))
                    (request_receiver_id r) (request_sender_id r) "pending" now).
  exists s1, request.
  split; [exact Haccept|]. split; [exact Hconn|]. split; [|split].
  - unfold send_connection_request. rewrite first_filter_absent.
    + change (get_user_by_id s1) with (get_user_by_id s). rewrite Ha.
      cbn [deref bind].
      replace (existsb _ (User_connections s1 ua)) with true; [reflexivity|].
      symmetry. apply existsb_exists. exists ub. split.
      * unfold get_user_connections in Hconn.
        change (get_user_by_id s1) with (get_user_by_id s) in Hconn.
        now rewrite Ha in Hconn.
      * apply Z.eqb_eq. now apply (get_user_by_id_some _ _ _ Hb).
    + intros x Hx. unfold s1, store_request in Hx. cbn [connection_requests] in Hx.
      apply in_map_iff in Hx as (y & <- & Hy).
      destruct (request_id y =? request_id (set_status r "accepted")) eqn:E.
      * unfold pending_from_to. cbn [set_status status String.eqb Ascii.eqb Bool.eqb].
        apply andb_false_r.
      * apply not_true_is_false. intros Hp.
        rewrite (Honly y Hy Hp) in E. cbn [set_status request_id] in E.
        now rewrite Z.eqb_refl in E.
  - unfold send_connection_request. rewrite first_filter_absent.
    + change (get_user_by_id s1) with (get_user_by_id s). rewrite Hb.
      cbn [deref bind].
      replace (existsb _ (User_connections s1 ub)) with false; [reflexivity|].
      symmetry. apply not_true_is_false. intros H.
      apply existsb_exists in H as (v & Hv & Hid). apply Z.eqb_eq in Hid.
      apply (Hrev v); [|exact Hid]. rewrite <- Hkept.
      unfold get_user_connections.
      change (get_user_by_id s1) with (get_user_by_id s). now rewrite Hb.
    + intros x Hx. unfold s1, store_request in Hx. cbn [connection_requests] in Hx.
      apply in_map_iff in Hx as (y & <- & Hy).
      destruct (request_id y =? request_id (set_status r "accepted")).
      * unfold pending_from_to.
        cbn [set_status request_sender_id request_receiver_id].
        apply Z.eqb_neq in Hab. now rewrite Hab.
      * now apply Hnone.
  - cbn [request request_sender_id request_receiver_id status request_id].
    repeat split. intros H. apply in_map_iff in H as (x & Hx & Hxin).
    apply (next_id_fresh request_id) in Hxin. lia.
Qed.

(** The failing input of C4: users 1 and 2 and the pending request from
    1 to 2.  Once it is accepted, a request from 2 to 1 is stored as a
    new pending request. *)
Lemma send_connection_request_after_accept_witness :
  let u1 := mkUser 1 (Some "a@x") (Some "a") None None None None None None None in
  let u2 := mkUser 2 (Some "b@x") (Some "b") None None None None None None None in
  let r := mkConnectionRequest 1 1 2 "pending" 0 in
  let r' := mkConnectionRequest 1 1 2 "accepted" 0 in
  let back := mkConnectionRequest 2 2 1 "pending" 7 in
  let s := mkDb [u1; u2] [] [r] [] [] [] in
  let s1 := mkDb [u1; u2] [(1, 2)] [r'] [] [] [] in
  accept_connection_request s 1 = Ok (s1, Some r')
  /\ get_user_connections s1 1 = [u2]
  /\ send_connection_request s1 7 1 2 = Ok (s1, None)
  /\ send_connection_request s1 7 2 1
     = Ok (mkDb [u1; u2] [(1, 2)] [r'; back] [] [] [], Some back).
Proof.
  intros u1 u2 r r' back s s1.
  destruct (send_connection_request_after_accept s 7 r u1 u2)
    as (s1' & request & Haccept & _ & Hsame & _);
    try reflexivity.
  - now left.
  - repeat constructor. simpl. tauto.
  - discriminate.
  - intros v [].
  - intros v [].
  - intros x [<-|[]] _. reflexivity.
  - intros x [<-|[]]. reflexivity.
  - assert (E : accept_connection_request s 1 = Ok (s1, Some r')) by reflexivity.
    change (request_id r) with 1 in Haccept. rewrite E in Haccept.
    injection Haccept as <-.
    split; [exact E|]. split; [reflexivity|]. split; [exact Hsame|].
    reflexivity.
Defined.

(** C6, where the code departs from it.  Let the pending request [r]
    from A to B be accepted, A and B being distinct existing users
    neither of whom is among the other's connections.  The accept
    succeeds and makes B a connection of A, and every post of B is in the
    whole feed of A.  But no post of A is on any page of the feed of B,
    although A and B are connected. *)
Theorem get_feed_posts_after_accept (s : db) (r : ConnectionRequest) (ua ub : User) :
  In r (connection_requests s) ->
  NoDup (map request_id (connection_requests s)) ->
  status r = "pending" ->
  get_user_by_id s (request_sender_id r) = Some ua ->
  get_user_by_id s (request_receiver_id r) = Some ub ->
  request_sender_id r <> request_receiver_id r ->
  (forall v, In v (get_user_connections s (request_sender_id r)) ->
             user_id v <> request_receiver_id r) ->
  (forall v, In v (get_user_connections s (request_receiver_id r)) ->
             user_id v <> request_sender_id r) ->
  exists s1,
    accept_connection_request s (request_id r) = Ok (s1, Some (set_status r "accepted"))
    /\ posts s1 = posts s
    /\ In ub (get_user_connections s1 (request_sender_id r))
    /\ (forall p, In p (posts s) -> author_id p = request_receiver_id r ->
                  In p (get_feed_posts s1 (request_sender_id r) (Some 0%nat)
                          (Some (length (posts s)))))
    /\ (forall p skip lim, In p (posts s) -> author_id p = request_sender_id r ->
                           ~ In p (get_feed_posts s1 (request_receiver_id r) skip lim)).
Proof.
  intros Hin Hnd Hst Ha Hb Hab Hnew Hrev.
  destruct (accept_stores_one_row s r ua ub Hin Hnd Hst Ha Hb Hab Hnew)
    as (Haccept & Hconn & Hkept).
  set (s1 := mkDb (users s)
               (connections s ++ [(request_sender_id r, request_receiver_id r)])
               (store_request (set_status r "accepted") (connection_requests s))
               (posts s) (likes s) (messages s)) in *.
  exists s1. split; [exact Haccept|]. split; [reflexivity|]. split; [exact Hconn|].
  split.
  - intros p Hp Hauthor.
    apply (get_feed_posts_whole_In s1 (request_sender_id r) ua p Ha Hp).
    unfold in_feed_of. apply orb_true_iff. right.
    apply existsb_exists. exists ub. split; [exact Hconn|].
    apply Z.eqb_eq. rewrite Hauthor. now apply (get_user_by_id_some _ _ _ Hb).
  - intros p skip lim Hp Hauthor Hpage.
    apply (get_feed_posts_page_In s1 _ skip lim ub p Hb) in Hpage as [_ Hfeed].
    unfold in_feed_of in Hfeed. rewrite Hkept in Hfeed.
    apply orb_true_iff in Hfeed as [H|H].
    + apply Z.eqb_eq in H. congruence.
    + apply existsb_exists in H as (v & Hv & Hid). apply Z.eqb_eq in Hid.
      apply (Hrev v Hv). congruence.
Qed.

(** The failing input of C6: users 1 and 2, each with a post, and the
    pending request from 1 to 2.  Once it is accepted, the feed of user 1
    holds both posts and the feed of user 2 only its own. *)
Lemma get_feed_posts_after_accept_witness :
  let u1 := mkUser 1 (Some "a@x") (Some "a") None None None None None None None in
  let u2 := mkUser 2 (Some "b@x") (Some "b") None None None None None None None in
  let r := mkConnectionRequest 1 1 2 "pending" 0 in
  let r' := mkConnectionRequest 1 1 2 "accepted" 0 in
  let p1 := mkPost 1 1 "from 1" None 10 in
  let p2 := mkPost 2 2 "from 2" None 20 in
  let s := mkDb [u1; u2] [] [r] [p1; p2] [] [] in
  let s1 := mkDb [u1; u2] [(1, 2)] [r'] [p1; p2] [] [] in
  accept_connection_request s 1 = Ok (s1, Some r')
  /\ get_user_connections s1 1 = [u2]
  /\ get_feed_posts s1 1 None None = [p2; p1]
  /\ get_feed_posts s1 2 None None = [p2]
  /\ ~ In p1 (get_feed_posts s1 2 None None).
Proof.
  intros u1 u2 r r' p1 p2 s s1.
  destruct (get_feed_posts_after_accept s r u1 u2)
    as (s1' & Haccept & _ & _ & _ & Hmiss);
    try reflexivity.
  - now left.
  - repeat constructor. simpl. tauto.
  - discriminate.
  - intros v [].
  - intros v [].
  - assert (E : accept_connection_request s 1 = Ok (s1, Some r')) by reflexivity.
    change (request_id r) with 1 in Haccept. rewrite E in Haccept.
    injection Haccept as <-.
    split; [exact E|]. repeat (split; [reflexivity|]).
    apply (Hmiss p1 None None); [now left | reflexivity].
Defined.

End OneWay.

(** ** Users *)

Section Users.
Import UserService.

Lemma taken_spec (col : User -> option string) (e : string) (rows : list User) :
  taken col (Some e) rows = true <-> exists v, In v rows /\ col v = Some e.
Proof.
  unfold taken. rewrite existsb_exists. split; intros (v & Hin & Hv); exists v.
  - destruct (col v) as [e'|]; [|discriminate].
    apply String.eqb_eq in Hv. now subst.
  - rewrite Hv. split; [exact Hin | apply String.eqb_refl].
Qed.

Lemma taken_free (col : User -> option string) (e : string) (rows : list User) :
  (forall v, In v rows -> col v <> Some e) -> taken col (Some e) rows = false.
Proof.
  intros H. apply not_true_is_false. intros Ht.
  apply taken_spec in Ht as (v & Hin & Hv). exact (H v Hin Hv).
Qed.

Lemma get_user_by_id_appended (s : db) (u : User) :
  (forall v, In v (users s) -> user_id v <> user_id u) ->
  get_user_by_id (set_users s (users s ++ [u])) (user_id u) = Some u.
Proof.
  intros H. unfold get_user_by_id. cbn [set_users users].
  rewrite filter_app.
  replace (filter _ (users s)) with (@nil User).
  - cbn [filter app]. now rewrite Z.eqb_refl.
  - symmetry. apply first_filter_none, first_filter_absent.
    intros v Hv. apply Z.eqb_neq. now apply H.
Qed.

Section CreateUserFacts.
Variable get_password_hash : string -> string.

(** C9, as the code has it.  When a row already holds the given email or
    the given username, [create_user] fails with the store's own
    unique-constraint error, [IntegrityError], passed on as it is, and
    stores nothing; no call raises the domain error [ConflictError].
    Otherwise it appends one user with a fresh id, the given email,
    username and full name and the hash of the password, and returns
    that user, which [get_user_by_id] then finds. *)
Theorem create_user_conflict (s : db) (now : Z) (e u pw n : string) :
  ((exists v, In v (users s) /\ (email v = Some e \/ username v = Some u)) ->
   create_user get_password_hash s now e u pw n = Raise IntegrityError)
  /\ create_user get_password_hash s now e u pw n <> Raise ConflictError
  /\ ((forall v, In v (users s) -> email v <> Some e /\ username v <> Some u) ->
      exists user,
        create_user get_password_hash s now e u pw n
        = Ok (set_users s (users s ++ [user]), user)
        /\ email user = Some e
        /\ username user = Some u
        /\ hashed_password user = Some (get_password_hash pw)
        /\ full_name user = Some n
        /\ ~ In (user_id user) (map user_id (users s))
        /\ get_user_by_id (set_users s (users s ++ [user])) (user_id user)
           = Some user).
Proof.
  unfold create_user. split; [|split].
  - intros (v & Hin & [He|Hu]).
    + replace (taken email (Some e) (users s)) with true; [reflexivity|].
      symmetry. apply taken_spec. now exists v.
    + replace (taken username (Some u) (users s)) with true;
        [now rewrite orb_true_r|].
      symmetry. apply taken_spec. now exists v.
  - destruct (_ || _); discriminate.
  - intros Hfree.
    rewrite !taken_free by (intros v Hv; now apply Hfree).
    cbn [orb]. eexists. split; [reflexivity|]. cbn [email username
      hashed_password full_name user_id].
    assert (Hfresh : forall v, In v (users s) ->
                               user_id v <> next_id user_id (users s)).
    { intros v Hv. apply (next_id_fresh user_id) in Hv. lia. }
    repeat split.
    + intros Hin. apply in_map_iff in Hin as (v & Hv & Hvin).
      exact (Hfresh v Hvin Hv).
    + now apply (get_user_by_id_appended s (mkUser _ _ _ _ _ _ _ _ _ _)).
Qed.
End CreateUserFacts.

Lemma create_user_conflict_witness :
  let hash p := ("#" ++ p)%string in
  let alice :=
    mkUser 1 (Some "alice@x") (Some "alice") (Some "#pw") (Some "Alice")
      None None (Some "/static/default_profile.png") None (Some 5) in
  let s := set_users empty_db [alice] in
  create_user hash empty_db 5 "alice@x" "alice" "pw" "Alice" = Ok (s, alice)
  /\ create_user hash s 6 "alice@x" "al" "pw" "Al" = Raise IntegrityError
  /\ create_user hash s 6 "al@x" "alice" "pw" "Al" = Raise IntegrityError.
Proof.
  intros hash alice s. split; [reflexivity|]. split.
  - apply (create_user_conflict hash s 6 "alice@x" "al" "pw" "Al").
    exists alice. split; [now left | now left].
  - apply (create_user_conflict hash s 6 "al@x" "alice" "pw" "Al").
    exists alice. split; [now left | now right].
Defined.

(** C9 as stated fails where the email is taken: the error raised is the
    store's [IntegrityError], not a [ConflictError]. *)
Lemma create_user_raises_store_error :
  let hash p := ("#" ++ p)%string in
  let alice :=
    mkUser 1 (Some "alice@x") (Some "alice") (Some "#pw") (Some "Alice")
      None None (Some "/static/default_profile.png") None (Some 5) in
  let s := set_users empty_db [alice] in
  create_user hash s 6 "alice@x" "al" "pw" "Al" = Raise IntegrityError
  /\ create_user hash s 6 "alice@x" "al" "pw" "Al" <> Raise ConflictError.
Proof. split; [reflexivity | discriminate]. Qed.

(** *** [update_profile] *)

Ltac by_key :=
  repeat match goal with
         | |- context [String.eqb ?a ?b] =>
             destruct (String.eqb_spec a b);
             [try discriminate; subst|];
             cbn [option_map fst snd]
         end.

Lemma attribute_of_string (k : string) (c : string_column) :
  attribute_of k = Some (Astring c) -> k = column_name c.
Proof.
  unfold attribute_of, User_attributes. cbn [find fst snd].
  by_key; intros [= <-]; reflexivity.
Qed.

Lemma attribute_of_created_at (k : string) :
  attribute_of k = Some Acreated_at -> k = "created_at".
Proof.
  unfold attribute_of, User_attributes. cbn [find fst snd].
  by_key; intros [=]; reflexivity.
Qed.

Lemma attribute_of_id (k : string) : attribute_of k = Some Aid -> k = "id".
Proof.
  unfold attribute_of, User_attributes. cbn [find fst snd].
  by_key; intros [=]; reflexivity.
Qed.

Lemma get_set_column (c : string_column) (v : option string) (u : User) :
  get_column c (set_column c v u) = v.
Proof. destruct c; reflexivity. Qed.

Lemma get_set_other (c c' : string_column) (v : option string) (u : User) :
  c <> c' -> get_column c (set_column c' v u) = get_column c u.
Proof. destruct c, c'; intros H; try reflexivity; now elim H. Qed.

Section UpdateProfileFacts.
Variable object_attribute : string -> bool.
Variable setattr_object : string -> option string -> option exn.

Lemma apply_kwarg_raise (kw : list (string * option string)) (e : exn) :
  fold_left (apply_kwarg object_attribute setattr_object) kw (Raise e) = Raise e.
Proof. induction kw as [|kv kw IH]; [reflexivity | exact IH]. Qed.

Lemma apply_kwarg_skip (acc : result session_user) (kv : string * option string) :
  assignable object_attribute (fst kv) = false -> apply_kwarg object_attribute setattr_object acc kv = acc.
Proof.
  unfold apply_kwarg, assignable. intros ->. now destruct acc.
Qed.

(** One turn of the loop. *)
Lemma apply_kwarg_step (p0 p1 : session_user) (k : string) (v : option string) :
  apply_kwarg object_attribute setattr_object (Ok p0) (k, v) = Ok p1 ->
  user_id (obj p1) = user_id (obj p0)
  /\ hashed_password (obj p1) = hashed_password (obj p0)
  /\ (forall c, column_name c <> k -> get_column c (obj p1) = get_column c (obj p0))
  /\ (forall c, c <> HashedPassword -> column_name c = k ->
                get_column c (obj p1) = v)
  /\ (k <> "created_at" ->
      user_created_at (obj p1) = user_created_at (obj p0)
      /\ unstorable p1 = unstorable p0).
Proof.
  unfold apply_kwarg. cbn [bind fst snd].
  destruct (hasattr object_attribute k && _ && _) eqn:G.
  - apply andb_true_iff in G as [G Hpw]. apply andb_true_iff in G as [_ Hid].
    apply negb_true_iff, String.eqb_neq in Hpw, Hid.
    unfold setattr. destruct (attribute_of k) as [[| c' | |]|] eqn:Ha.
    + apply attribute_of_id in Ha. contradiction.
    + apply attribute_of_string in Ha. subst k.
      assert (c' <> HashedPassword) by (intros ->; now apply Hpw).
      intros [= <-]. cbn [obj unstorable]. repeat split.
      * now destruct c'.
      * destruct c'; try reflexivity. contradiction.
      * intros c Hc. apply get_set_other. congruence.
      * intros c _ Hc. replace c' with c; [apply get_set_column|].
        destruct c, c'; try reflexivity; discriminate.
      * now destruct c'.
    + apply attribute_of_created_at in Ha. subst k.
      destruct v; intros [= <-]; cbn [obj unstorable]; repeat split;
        try (now destruct c); try (intros c H1 H2; now destruct c);
        intros; contradiction.
    + discriminate.
    + destruct (object_attribute k);
        [destruct (setattr_object k v); [discriminate|]|];
        intros [= <-]; repeat split; try reflexivity;
        intros c _ Hc; subst k; destruct c; discriminate.
  - intros [= <-]. repeat split; try reflexivity.
    intros c Hc Hk. subst k. destruct c; try discriminate; contradiction.
Qed.

Lemma update_loop_frame (kw : list (string * option string)) (p0 p : session_user) :
  fold_left (apply_kwarg object_attribute setattr_object) kw (Ok p0) = Ok p ->
  profile_frame (map fst kw) (obj p0) (obj p).
Proof.
  revert p0. induction kw as [|[k v] kw IH]; intros p0; cbn [fold_left map fst].
  - intros [= <-]. now repeat split.
  - destruct (apply_kwarg object_attribute setattr_object (Ok p0) (k, v)) as [p1|e] eqn:E;
      [|rewrite apply_kwarg_raise; discriminate].
    intros H. apply IH in H as (Hid & Hpw & Hcol & Hat).
    apply apply_kwarg_step in E as (Hid1 & Hpw1 & Hcol1 & _ & Hat1).
    repeat split.
    + congruence.
    + congruence.
    + intros c Hc. rewrite Hcol, Hcol1; [reflexivity | |]; intros Hk; apply Hc.
      * now left.
      * now right.
    + intros Hc. rewrite Hat; [apply Hat1 | ]; intros Hk; apply Hc.
      * now left.
      * now right.
Qed.

Lemma update_loop_applied (kw : list (string * option string)) (p0 p : session_user) :
  NoDup (map fst kw) ->
  fold_left (apply_kwarg object_attribute setattr_object) kw (Ok p0) = Ok p ->
  forall c v, c <> HashedPassword -> In (column_name c, v) kw ->
              get_column c (obj p) = v.
Proof.
  revert p0. induction kw as [|[k v0] kw IH]; intros p0 Hnd; cbn [fold_left map fst].
  - intros _ c v _ [].
  - inversion Hnd as [|? ? Hk Hnd']; subst.
    destruct (apply_kwarg object_attribute setattr_object (Ok p0) (k, v0)) as [p1|e] eqn:E;
      [|rewrite apply_kwarg_raise; discriminate].
    intros H c v Hc [[= -> ->]|Hin].
    + apply apply_kwarg_step in E as (_ & _ & _ & Hset & _).
      apply update_loop_frame in H as (_ & _ & Hcol & _).
      rewrite Hcol by exact Hk. now apply Hset.
    + now apply (IH p1).
Qed.

Lemma update_loop_source (kw : list (string * option string)) (p0 p : session_user) :
  fold_left (apply_kwarg object_attribute setattr_object) kw (Ok p0) = Ok p ->
  forall c, get_column c (obj p) = get_column c (obj p0)
            \/ In (column_name c, get_column c (obj p)) kw.
Proof.
  revert p0. induction kw as [|[k v] kw IH]; intros p0; cbn [fold_left].
  - intros [= <-] c. now left.
  - destruct (apply_kwarg object_attribute setattr_object (Ok p0) (k, v)) as [p1|e] eqn:E;
      [|rewrite apply_kwarg_raise; discriminate].
    intros H c. destruct (IH _ H c) as [Hsame|Hin]; [|right; now right].
    apply apply_kwarg_step in E as (_ & Hpw & Hcol & Hset & _).
    destruct (string_dec (column_name c) k) as [Hk|Hk].
    + assert (c = HashedPassword \/ c <> HashedPassword) as [->|Hc]
        by (destruct c; (now left) || (right; discriminate)).
      * left. rewrite Hsame. exact Hpw.
      * right. left. rewrite Hsame, (Hset c Hc Hk), Hk. reflexivity.
    + left. rewrite Hsame. now apply Hcol.
Qed.

Lemma apply_kwarg_returns (p0 : session_user) (k : string) (v : option string) :
  attribute_of k <> Some Arelationship ->
  (attribute_of k = None -> object_attribute k = false) ->
  exists p1,
    apply_kwarg object_attribute setattr_object (Ok p0) (k, v) = Ok p1
    /\ ((k = "created_at" -> v = None) ->
        unstorable p0 = false -> unstorable p1 = false).
Proof.
  intros Hrel Hknown. unfold apply_kwarg. cbn [bind fst snd].
  destruct (hasattr object_attribute k && _ && _) eqn:G; [|now exists p0].
  apply andb_true_iff in G as [G _]. apply andb_true_iff in G as [_ Hid].
  apply negb_true_iff, String.eqb_neq in Hid.
  unfold setattr. destruct (attribute_of k) as [[| c | |]|] eqn:Ha.
  - apply attribute_of_id in Ha. contradiction.
  - eexists. split; [reflexivity | now intros _ Hst].
  - apply attribute_of_created_at in Ha. destruct v as [v|].
    + eexists. split; [reflexivity|]. intros Hat. now specialize (Hat Ha).
    + eexists. split; reflexivity.
  - contradiction.
  - rewrite (Hknown eq_refl). now exists p0.
Qed.

Lemma update_loop_returns (kw : list (string * option string)) (p0 : session_user) :
  mapped_or_unknown object_attribute kw ->
  no_relationship kw ->
  exists p,
    fold_left (apply_kwarg object_attribute setattr_object) kw (Ok p0) = Ok p
    /\ ((forall v, In ("created_at", v) kw -> v = None) ->
        unstorable p0 = false -> unstorable p = false).
Proof.
  revert p0. induction kw as [|[k v] kw IH]; intros p0 Hknown Hrel; cbn [fold_left].
  - now exists p0.
  - destruct (apply_kwarg_returns p0 k v) as (p1 & -> & Hst1).
    + apply (Hrel k v). now left.
    + apply (Hknown k v). now left.
    + destruct (IH p1) as (p & Hp & Hst).
      * intros k' v' H. apply (Hknown k' v'). now right.
      * intros k' v' H. apply (Hrel k' v'). now right.
      * exists p. split; [exact Hp|]. intros Hat H0. apply Hst.
        -- intros v' H. apply Hat. now right.
        -- apply Hst1; [|exact H0]. intros ->. apply Hat. now left.
Qed.

(** A relationship named by the map stops the loop. *)
Lemma update_loop_relationship (kw : list (string * option string)) (p0 : session_user) :
  mapped_or_unknown object_attribute kw ->
  (exists k v, In (k, v) kw /\ attribute_of k = Some Arelationship) ->
  fold_left (apply_kwarg object_attribute setattr_object) kw (Ok p0) = Raise TypeError.
Proof.
  revert p0. induction kw as [|[k v] kw IH]; intros p0 Hknown (k' & v' & Hin & Hrel).
  - contradiction.
  - cbn [fold_left].
    destruct (attribute_of k) as [[| c | |]|] eqn:Ha; cycle 3.
    + (* the head names a relationship *)
      replace (apply_kwarg object_attribute setattr_object (Ok p0) (k, v))
        with (@Raise session_user TypeError); [apply apply_kwarg_raise|].
      unfold apply_kwarg, hasattr, setattr. cbn [bind fst snd]. rewrite Ha.
      revert Ha. unfold attribute_of, User_attributes. cbn [find fst snd].
      by_key; intros [=]; reflexivity.
    + destruct (apply_kwarg_returns p0 k v) as (p1 & -> & _);
        [congruence | apply (Hknown k v); now left |].
      apply IH; [intros a b H; apply (Hknown a b); now right|].
      destruct Hin as [[= <- <-]|Hin]; [congruence | eauto].
    + destruct (apply_kwarg_returns p0 k v) as (p1 & -> & _);
        [congruence | apply (Hknown k v); now left |].
      apply IH; [intros a b H; apply (Hknown a b); now right|].
      destruct Hin as [[= <- <-]|Hin]; [congruence | eauto].
    + destruct (apply_kwarg_returns p0 k v) as (p1 & -> & _);
        [congruence | apply (Hknown k v); now left |].
      apply IH; [intros a b H; apply (Hknown a b); now right|].
      destruct Hin as [[= <- <-]|Hin]; [congruence | eauto].
    + destruct (apply_kwarg_returns p0 k v) as (p1 & -> & _);
        [congruence | apply (Hknown k v); now left |].
      apply IH; [intros a b H; apply (Hknown a b); now right|].
      destruct Hin as [[= <- <-]|Hin]; [congruence | eauto].
Qed.

Lemma update_loop_unstorable (kw : list (string * option string)) (p0 p : session_user) :
  fold_left (apply_kwarg object_attribute setattr_object) kw (Ok p0) = Ok p ->
  ~ In "created_at" (map fst kw) ->
  unstorable p = unstorable p0.
Proof.
  revert p0. induction kw as [|[k v] kw IH]; intros p0; cbn [fold_left map fst].
  - now intros [= <-].
  - destruct (apply_kwarg object_attribute setattr_object (Ok p0) (k, v)) as [p1|e] eqn:E;
      [|rewrite apply_kwarg_raise; discriminate].
    intros H Hk. apply apply_kwarg_step in E as (_ & _ & _ & _ & Hat).
    rewrite (IH p1 H) by (intros Hin; apply Hk; now right).
    apply Hat. intros ->. apply Hk. now left.
Qed.

(** A string given for [created_at] is still there when the loop ends. *)
Lemma update_loop_created_at (kw : list (string * option string)) (p0 p : session_user)
    (v : string) :
  NoDup (map fst kw) ->
  fold_left (apply_kwarg object_attribute setattr_object) kw (Ok p0) = Ok p ->
  In ("created_at", Some v) kw ->
  unstorable p = true.
Proof.
  revert p0. induction kw as [|[k v0] kw IH]; intros p0 Hnd; cbn [fold_left map fst].
  - intros _ [].
  - inversion Hnd as [|? ? Hk Hnd']; subst.
    destruct (apply_kwarg object_attribute setattr_object (Ok p0) (k, v0)) as [p1|e] eqn:E;
      [|rewrite apply_kwarg_raise; discriminate].
    intros H [[= -> ->]|Hin]; [|now apply (IH p1)].
    rewrite (update_loop_unstorable _ _ _ H Hk).
    unfold apply_kwarg, hasattr, setattr in E. cbn in E. now injection E as <-.
Qed.

Lemma update_loop_ignores (kw : list (string * option string))
    (acc : result session_user) :
  fold_left (apply_kwarg object_attribute setattr_object) kw acc
  = fold_left (apply_kwarg object_attribute setattr_object) (filter (fun kv => assignable object_attribute (fst kv)) kw) acc.
Proof.
  revert acc. induction kw as [|kv kw IH]; intros acc; cbn [fold_left filter].
  - reflexivity.
  - destruct (assignable object_attribute (fst kv)) eqn:E; cbn [fold_left].
    + apply IH.
    + rewrite (apply_kwarg_skip _ _ E). apply IH.
Qed.

Lemma same_refl (a : option string) : same a a = true.
Proof. destruct a; [apply String.eqb_refl | reflexivity]. Qed.

Lemma same_eq (a b : option string) : same a b = true <-> a = b.
Proof.
  destruct a as [x|], b as [y|]; simpl; try (split; [discriminate | congruence]).
  - rewrite String.eqb_eq. split; congruence.
  - tauto.
Qed.

Lemma get_user_by_id_replaced (s : db) (uid : Z) (user u' : User) :
  get_user_by_id s uid = Some user ->
  user_id u' = uid ->
  get_user_by_id
    (set_users s (map (fun v => if user_id v =? uid then u' else v) (users s))) uid
  = Some u'.
Proof.
  unfold get_user_by_id. cbn [set_users users]. intros H Hid.
  induction (users s) as [|v l IH]; [discriminate|].
  cbn [map filter] in *. destruct (user_id v =? uid) eqn:E.
  - rewrite Hid, Z.eqb_refl. reflexivity.
  - rewrite E. now apply IH.
Qed.

(** C8, as the code has it.  For a missing user [update_profile] returns
    the not-found signal and changes nothing.  For an existing user: when
    it returns, it returns the stored user, whose row alone is rewritten;
    the id and the stored credential are as before, and so is every column
    that no key of the map names; each string column other than the
    credential that a key names holds the value given; entries whose key
    is not an attribute, or is [id] or [hashed_password], make no
    difference.  When every key is a mapped attribute of [User] or no
    attribute at all, the outcome is decided as follows: a key naming a
    relationship raises [TypeError]; else a string given for [created_at]
    raises [StatementError]; else a new email or username that another
    user holds raises [IntegrityError]; in each case the error propagates
    and no store is returned; else the call returns. *)
Theorem update_profile_frame (s : db) (uid : Z) (kwargs : list (string * option string)) :
  (get_user_by_id s uid = None ->
   update_profile object_attribute setattr_object s uid kwargs = Ok (s, None))
  /\ (forall user, get_user_by_id s uid = Some user ->
        (forall s' o,
           update_profile object_attribute setattr_object s uid kwargs = Ok (s', o) ->
           exists u',
             o = Some u'
             /\ s' = set_users s
                       (map (fun v => if user_id v =? uid then u' else v) (users s))
             /\ get_user_by_id s' uid = Some u'
             /\ profile_frame (map fst kwargs) user u'
             /\ (NoDup (map fst kwargs) ->
                 forall c v, c <> HashedPassword -> In (column_name c, v) kwargs ->
                             get_column c u' = v))
        /\ update_profile object_attribute setattr_object s uid kwargs
           = update_profile object_attribute setattr_object s uid
               (filter (fun kv => assignable object_attribute (fst kv)) kwargs)
        /\ (mapped_or_unknown object_attribute kwargs ->
            ((exists k v, In (k, v) kwargs /\ attribute_of k = Some Arelationship) ->
             update_profile object_attribute setattr_object s uid kwargs
             = Raise TypeError)
            /\ (no_relationship kwargs -> NoDup (map fst kwargs) ->
                (exists v, In ("created_at", Some v) kwargs) ->
                update_profile object_attribute setattr_object s uid kwargs
                = Raise StatementError)
            /\ (no_relationship kwargs -> NoDup (map fst kwargs) ->
                (forall v, In ("created_at", v) kwargs -> v = None) ->
                (exists e, In ("email", Some e) kwargs /\ email user <> Some e
                           /\ held_by_other s uid email e)
                \/ (exists e, In ("username", Some e) kwargs /\ username user <> Some e
                              /\ held_by_other s uid username e) ->
                update_profile object_attribute setattr_object s uid kwargs
                = Raise IntegrityError)
            /\ (no_relationship kwargs ->
                (forall v, In ("created_at", v) kwargs -> v = None) ->
                (forall e, In ("email", Some e) kwargs -> ~ held_by_other s uid email e) ->
                (forall e, In ("username", Some e) kwargs ->
                           ~ held_by_other s uid username e) ->
                exists s' u',
                  update_profile object_attribute setattr_object s uid kwargs
                  = Ok (s', Some u')))).
Proof.
  split; [unfold update_profile; now intros ->|].
  intros user Hu. destruct (get_user_by_id_some _ _ _ Hu) as [Huin Hid].
  unfold update_profile. rewrite Hu. split; [|split].
  - intros s' o.
    destruct (fold_left (apply_kwarg object_attribute setattr_object) kwargs _)
      as [p|e] eqn:E; [|discriminate].
    cbn [bind]. unfold commit_user.
    destruct (unstorable p); [discriminate|].
    destruct (_ || _); [discriminate|].
    rewrite Hid. intros [= <- <-].
    pose proof (update_loop_frame _ _ _ E) as Hframe. cbn [obj] in Hframe.
    exists (obj p). split; [reflexivity|]. split; [reflexivity|].
    split; [|split; [exact Hframe|]].
    + apply (get_user_by_id_replaced s uid user); [exact Hu|].
      destruct Hframe as [-> _]. exact Hid.
    + intros Hnd. exact (update_loop_applied _ _ _ Hnd E).
  - now rewrite <- update_loop_ignores.
  - intros Hknown.
    assert (Hothers : forall (col : User -> option string) e,
               held_by_other s uid col e <->
               taken col (Some e)
                 (filter (fun v => negb (user_id v =? user_id user)) (users s)) = true).
    { intros col e. rewrite taken_spec, Hid. unfold held_by_other.
      split; intros (w & Hw & H); exists w.
      - destruct H as [Hne Hc]. split; [|exact Hc].
        apply filter_In. split; [exact Hw|]. now apply negb_true_iff, Z.eqb_neq.
      - apply filter_In in Hw as [Hw Hne].
        apply negb_true_iff, Z.eqb_neq in Hne. tauto. }
    split; [|split; [|split]].
    + intros Hrel. now rewrite update_loop_relationship.
    + intros Hrel Hnd (v & Hv).
      destruct (update_loop_returns kwargs (mkSessionUser user false) Hknown Hrel)
        as (p & E & _).
      rewrite E. cbn [bind]. unfold commit_user.
      now rewrite (update_loop_created_at _ _ _ _ Hnd E Hv).
    + intros Hrel Hnd Hat Hheld.
      destruct (update_loop_returns kwargs (mkSessionUser user false) Hknown Hrel)
        as (p & E & Hst).
      rewrite E. cbn [bind]. unfold commit_user. rewrite (Hst Hat eq_refl).
      assert (Hclash : forall (col : User -> option string) (c : string_column) e,
                 c <> HashedPassword ->
                 (forall u, col u = get_column c u) ->
                 In (column_name c, Some e) kwargs -> col user <> Some e ->
                 held_by_other s uid col e ->
                 negb (same (col user) (col (obj p)))
                 && taken col (col (obj p))
                      (filter (fun v => negb (user_id v =? user_id user)) (users s))
                 = true).
      { intros col c e Hc Hcol Hin Hnew Hother.
        rewrite (Hcol (obj p)), (update_loop_applied _ _ _ Hnd E c (Some e) Hc Hin).
        apply andb_true_iff. split; [|now apply Hothers].
        apply negb_true_iff, not_true_iff_false. intros Hs.
        now apply same_eq in Hs. }
      destruct Hheld as [(e & Hin & Hnew & Hother)|(e & Hin & Hnew & Hother)].
      * rewrite (Hclash email Email e); try assumption; try reflexivity.
        discriminate.
      * rewrite (Hclash username Username e); try assumption; try reflexivity.
        -- now rewrite orb_true_r.
        -- discriminate.
    + intros Hrel Hat Hemail Hname.
      destruct (update_loop_returns kwargs (mkSessionUser user false) Hknown Hrel)
        as (p & E & Hst).
      rewrite E. cbn [bind]. unfold commit_user. rewrite (Hst Hat eq_refl).
      assert (Hclash : forall (col : User -> option string) (c : string_column),
                 (forall u, col u = get_column c u) ->
                 (forall e, In (column_name c, Some e) kwargs ->
                            ~ held_by_other s uid col e) ->
                 negb (same (col user) (col (obj p)))
                 && taken col (col (obj p))
                      (filter (fun v => negb (user_id v =? user_id user)) (users s))
                 = false).
      { intros col c Hcol Hfree.
        destruct (update_loop_source _ _ _ E c) as [Hsame|Hin]; cbn [obj] in *.
        - rewrite !Hcol, Hsame, same_refl. reflexivity.
        - rewrite <- Hcol in Hin. destruct (col (obj p)) as [e|]; [|apply andb_false_r].
          replace (taken col (Some e) _) with false; [apply andb_false_r|].
          symmetry. apply not_true_is_false. intros Ht.
          apply Hothers in Ht. exact (Hfree e Hin Ht). }
      rewrite (Hclash email Email), (Hclash username Username);
        try reflexivity; try assumption.
      cbn [orb]. eauto.
Qed.
End UpdateProfileFacts.

(** The update of a profile at a concrete store, [__class__] being the
    one further attribute of the object and refusing a [str]: user 2
    changes headline and email; the id, the credential and the unknown
    name in the map change nothing; a relationship, a string for
    [created_at] and an email held by user 1 raise. *)
Lemma update_profile_frame_witness :
  let object_attribute k := String.eqb k "__class__" in
  let setattr_object (k : string) (v : option string) := Some TypeError in
  let update := update_profile object_attribute setattr_object in
  let u1 := mkUser 1 (Some "a@x") (Some "a") (Some "#1") (Some "A")
              None None None None (Some 3) in
  let u2 := mkUser 2 (Some "b@x") (Some "b") (Some "#2") (Some "B")
              None None None None (Some 4) in
  let u2' := mkUser 2 (Some "c@x") (Some "b") (Some "#2") (Some "B")
               (Some "dev") None None None (Some 4) in
  let s := set_users empty_db [u1; u2] in
  let kwargs := [("headline", Some "dev"); ("id", Some "9"); ("nickname", Some "bee");
                 ("hashed_password", Some "x"); ("email", Some "c@x")] in
  update s 2 kwargs = Ok (set_users empty_db [u1; u2'], Some u2')
  /\ update s 3 kwargs = Ok (s, None)
  /\ (exists s' u', update s 2 kwargs = Ok (s', Some u'))
  /\ update s 2 [("bio", Some "x"); ("posts", None)] = Raise TypeError
  /\ update s 2 [("created_at", Some "today")] = Raise StatementError
  /\ update s 2 [("username", Some "a")] = Raise IntegrityError
  /\ update s 2 [("__class__", Some "x")] = Raise TypeError.
Proof.
  intros object_attribute setattr_object update u1 u2 u2' s kwargs.
  assert (Hknown : forall kw,
             (forall k v, In (k, v) kw -> In k ["headline"; "id"; "nickname";
                 "hashed_password"; "email"; "bio"; "posts"; "created_at"; "username"]) ->
             mapped_or_unknown object_attribute kw).
  { intros kw H k v Hin _. specialize (H k v Hin). simpl in H.
    repeat (destruct H as [<-|H]; [reflexivity|]). contradiction. }
  destruct (update_profile_frame object_attribute setattr_object s 3 kwargs)
    as [Hnone _].
  destruct (update_profile_frame object_attribute setattr_object s 2 kwargs)
    as [_ Hsome].
  destruct (Hsome u2 eq_refl) as (_ & _ & Hout).
  destruct Hout as (_ & _ & _ & Hret).
  { apply Hknown. intros k v H. simpl in H. simpl.
    repeat (destruct H as [[= <- <-]|H]; [tauto|]). contradiction. }
  destruct (update_profile_frame object_attribute setattr_object s 2
              [("bio", Some "x"); ("posts", None)]) as [_ Hsome1].
  destruct (Hsome1 u2 eq_refl) as (_ & _ & Hout1).
  destruct Hout1 as (Htype & _).
  { apply Hknown. intros k v H. simpl in H. simpl.
    repeat (destruct H as [[= <- <-]|H]; [tauto|]). contradiction. }
  destruct (update_profile_frame object_attribute setattr_object s 2
              [("created_at", Some "today")]) as [_ Hsome2].
  destruct (Hsome2 u2 eq_refl) as (_ & _ & Hout2).
  destruct Hout2 as (_ & Hstmt & _).
  { apply Hknown. intros k v H. simpl in H. simpl.
    repeat (destruct H as [[= <- <-]|H]; [tauto|]). contradiction. }
  destruct (update_profile_frame object_attribute setattr_object s 2
              [("username", Some "a")]) as [_ Hsome3].
  destruct (Hsome3 u2 eq_refl) as (_ & _ & Hout3).
  destruct Hout3 as (_ & _ & Hint & _).
  { apply Hknown. intros k v H. simpl in H. simpl.
    repeat (destruct H as [[= <- <-]|H]; [tauto|]). contradiction. }
  split; [reflexivity|]. split; [exact (Hnone eq_refl)|].
  split; [|split; [|split; [|split; [|reflexivity]]]].
  - apply Hret.
    + intros k v H. simpl in H.
      repeat (destruct H as [[= <- <-]|H]; [discriminate|]). contradiction.
    + intros v H. simpl in H.
      repeat (destruct H as [[=]|H]). contradiction.
    + intros e H (w & Hw & Hne & He). simpl in H, Hw.
      repeat (destruct H as [[= <-]|H]); try contradiction.
      destruct Hw as [<-|[<-|[]]]; [discriminate | now elim Hne].
    + intros e H. simpl in H.
      repeat (destruct H as [[=]|H]). contradiction.
  - apply Htype. exists "posts"%string, None. split; [simpl; tauto | reflexivity].
  - apply Hstmt.
    + intros k v [[= <- <-]|[]]. discriminate.
    + repeat constructor. now intros [].
    + exists "today"%string. now left.
  - apply Hint.
    + intros k v [[= <- <-]|[]]. discriminate.
    + repeat constructor. now intros [].
    + intros v [[=]|[]].
    + right. exists "a"%string. split; [now left|]. split; [discriminate|].
      exists u1. split; [now left|]. split; [discriminate | reflexivity].
Defined.

(** C8 as stated fails where the map gives an email another user holds:
    the commit raises, no user is returned and nothing is stored. *)
Lemma update_profile_email_taken :
  let object_attribute k := String.eqb k "__class__" in
  let setattr_object (k : string) (v : option string) := Some TypeError in
  let u1 := mkUser 1 (Some "a@x") (Some "a") (Some "#1") (Some "A")
              None None None None (Some 3) in
  let u2 := mkUser 2 (Some "b@x") (Some "b") (Some "#2") (Some "B")
              None None None None (Some 4) in
  let s := set_users empty_db [u1; u2] in
  get_user_by_id s 2 = Some u2
  /\ update_profile object_attribute setattr_object s 2 [("email", Some "a@x")]
     = Raise IntegrityError.
Proof. split; reflexivity. Qed.

End Users.


(** ** More on messaging *)

Section MoreMessaging.
Import MessageService.

Lemma insert_by_snoc {A : Type} (key : A -> Z) (y x : A) (l : list A) :
  key y <= key x -> insert_by key y (l ++ [x]) = insert_by key y l ++ [x].
Proof.
  intros H. induction l as [|z l IH]; simpl.
  - apply Z.leb_le in H. now rewrite H.
  - destruct (key y <=? key z); [reflexivity | now rewrite IH].
Qed.

Lemma order_by_asc_snoc {A : Type} (key : A -> Z) (l : list A) (x : A) :
  (forall y, In y l -> key y <= key x) ->
  order_by_asc key (l ++ [x]) = order_by_asc key l ++ [x].
Proof.
  induction l as [|a l IH]; intros H; [reflexivity|].
  cbn [app order_by_asc fold_right]. fold (order_by_asc key (l ++ [x])).
  fold (order_by_asc key l).
  rewrite IH by (intros y Hy; apply H; now right).
  apply insert_by_snoc, H. now left.
Qed.

Lemma order_by_asc_snoc_least {A : Type} (key : A -> Z) (l : list A) (x : A) :
  (forall y, In y l -> key x < key y) ->
  order_by_asc key (l ++ [x]) = x :: order_by_asc key l.
Proof.
  induction l as [|a l IH]; intros H; [reflexivity|].
  cbn [app order_by_asc fold_right]. fold (order_by_asc key (l ++ [x])).
  fold (order_by_asc key l).
  rewrite IH by (intros y Hy; apply H; now right).
  cbn [insert_by].
  assert (key x < key a) as Ha by (apply H; now left).
  apply Z.leb_gt in Ha. now rewrite Ha.
Qed.

Lemma between_sym (a b : Z) (m : Message) : between a b m = between b a m.
Proof. unfold between. apply orb_comm. Qed.

Lemma between_sent (s : db) (now a b : Z) (text : string) :
  filter (between a b) (messages (fst (send_message s now a b text)))
  = filter (between a b) (messages s) ++ [snd (send_message s now a b text)].
Proof.
  unfold send_message. cbn [fst snd set_messages messages].
  rewrite filter_app. f_equal. cbn [filter]. unfold between.
  cbn [sender_id receiver_id]. now rewrite !Z.eqb_refl.
Qed.

(** X1.  A message sent from A to B at a time later than every message
    the two have exchanged comes last in [get_conversation] while the
    conversation is shorter than the limit, and is not returned at all
    once the conversation has reached the limit: the page then stays what
    it was.  Either user reads the same conversation. *)
Theorem send_message_then_get_conversation (s : db) (now a b : Z) (text : string)
    (lim : option nat) :
  (forall m, In m (messages s) -> between a b m = true -> created_at m < now) ->
  let n := default_arg 50%nat lim in
  let k := length (filter (between a b) (messages s)) in
  let s' := fst (send_message s now a b text) in
  let message := snd (send_message s now a b text) in
  ((k < n)%nat ->
   get_conversation s' a b lim = get_conversation s a b lim ++ [message])
  /\ ((n <= k)%nat -> get_conversation s' a b lim = get_conversation s a b lim)
  /\ get_conversation s' b a lim = get_conversation s' a b lim.
Proof.
  intros Hnow n k s' message.
  assert (Hs' : get_conversation s' a b lim
                = firstn n (order_by_asc created_at (filter (between a b) (messages s))
                            ++ [message])).
  { unfold get_conversation, limit, s'. rewrite between_sent.
    rewrite order_by_asc_snoc; [reflexivity|].
    intros y Hy. apply filter_In in Hy as [Hy Hb].
    specialize (Hnow y Hy Hb). cbn. lia. }
  assert (Hk : length (order_by_asc created_at (filter (between a b) (messages s))) = k)
    by apply Permutation_length, order_by_asc_perm.
  repeat apply conj.
  - intros Hlt. rewrite Hs'. unfold get_conversation, limit. fold n.
    rewrite !firstn_all2; [reflexivity | lia |].
    rewrite length_app, Hk. cbn. lia.
  - intros Hle. rewrite Hs'. unfold get_conversation, limit. fold n.
    rewrite firstn_app, Hk.
    replace (n - k)%nat with 0%nat by lia. cbn [firstn]. apply app_nil_r.
  - unfold get_conversation. f_equal. f_equal. apply filter_ext.
    intros m. apply between_sym.
Qed.

Lemma send_message_then_get_conversation_witness :
  let s1 := fst (send_message empty_db 10 1 2 "a") in
  let s2 := fst (send_message s1 20 2 1 "b") in
  let m1 := mkMessage 1 1 2 "a" false 10 in
  let m2 := mkMessage 2 2 1 "b" false 20 in
  get_conversation s2 2 1 None = [m1; m2]
  /\ get_conversation s2 2 1 (Some 1%nat) = [m1].
Proof.
  intros s1 s2 m1 m2.
  assert (H : forall m, In m (messages s1) -> between 2 1 m = true -> created_at m < 20).
  { intros m [<-|[]] _. reflexivity. }
  destruct (send_message_then_get_conversation s1 20 2 1 "b" None H) as (Hadd & _ & _).
  destruct (send_message_then_get_conversation s1 20 2 1 "b" (Some 1%nat) H)
    as (_ & Hcut & _).
  split.
  - apply Hadd. cbn. lia.
  - apply Hcut. cbn. lia.
Defined.

(** X2.  [send_message] appends one unread message with a key no stored
    message has; it raises [get_unread_messages_count] of the receiver by
    one and leaves that of every other user, and every other table, as it
    was. *)
Theorem send_message_unread (s : db) (now a b : Z) (text : string) :
  let s' := fst (send_message s now a b text) in
  let message := snd (send_message s now a b text) in
  messages s' = messages s ++ [message]
  /\ set_messages s' (messages s) = s
  /\ read message = false
  /\ ~ In (message_id message) (map message_id (messages s))
  /\ get_unread_messages_count s' b = S (get_unread_messages_count s b)
  /\ (forall u, u <> b -> get_unread_messages_count s' u = get_unread_messages_count s u).
Proof.
  intros s' message. unfold s', message, send_message, get_unread_messages_count.
  cbn [fst snd set_messages messages read message_id].
  repeat apply conj.
  - reflexivity.
  - now destruct s.
  - reflexivity.
  - intros Hin. apply in_map_iff in Hin as (x & Hx & Hxin).
    apply (next_id_fresh message_id) in Hxin. lia.
  - rewrite filter_app, length_app. cbn [filter]. unfold unread_to at 2.
    cbn [receiver_id read]. rewrite Z.eqb_refl. cbn. lia.
  - intros u Hu. rewrite filter_app, length_app. cbn [filter]. unfold unread_to at 2.
    cbn [receiver_id read]. apply Z.eqb_neq in Hu. rewrite Z.eqb_sym in Hu.
    rewrite Hu. cbn. lia.
Qed.

Lemma first_order_by_desc {A : Type} (key : A -> Z) (l : list A) :
  l <> [] ->
  exists x, first (order_by_desc key l) = Some x
            /\ In x l /\ forall y, In y l -> key y <= key x.
Proof.
  intros Hl. unfold order_by_desc.
  pose proof (order_by_asc_perm (fun r => - key r) l) as HP.
  pose proof (order_by_asc_sorted (fun r => - key r) l) as HS.
  destruct (order_by_asc (fun r => - key r) l) as [|x L].
  - apply Permutation_nil in HP. contradiction.
  - exists x. split; [reflexivity|]. split.
    + eapply Permutation_in; [exact HP | now left].
    + intros y Hy. apply (Permutation_in _ (Permutation_sym HP)) in Hy.
      inversion HS as [|? ? _ Hx]; subst. destruct Hy as [->|Hy]; [lia|].
      rewrite Forall_forall in Hx. specialize (Hx y Hy).
      unfold key_le in Hx. lia.
Qed.

Lemma peer_ids_spec (s : db) (uid x : Z) :
  In x (nodup Z.eq_dec
          (nodup Z.eq_dec
             (map receiver_id (filter (fun m => sender_id m =? uid) (messages s)))
           ++ nodup Z.eq_dec
                (map sender_id (filter (fun m => receiver_id m =? uid) (messages s)))))
  <-> exists m, In m (messages s) /\ between uid x m = true.
Proof.
  rewrite nodup_In, in_app_iff, !nodup_In, !in_map_iff.
  setoid_rewrite filter_In. setoid_rewrite between_spec.
  setoid_rewrite Z.eqb_eq. split.
  - intros [(m & <- & Hm & Hs)|(m & <- & Hm & Hr)]; exists m; tauto.
  - intros (m & Hm & [[Hs Hr]|[Hs Hr]]); [left|right]; exists m; tauto.
Qed.

Lemma existsb_eqb_In (x : Z) (l : list Z) : existsb (Z.eqb x) l = true <-> In x l.
Proof.
  rewrite existsb_exists. split.
  - intros (y & Hy & E). apply Z.eqb_eq in E. now subst.
  - intros H. exists x. split; [exact H | apply Z.eqb_refl].
Qed.

Lemma sorted_recent_first (l : list Conversation) :
  Forall (fun c => exists m, last_message c = Some m) l ->
  StronglySorted (key_le (fun c => - default_arg 0 (sort_key c))) l ->
  StronglySorted recent_first l.
Proof.
  intros HF HS. induction HS as [|c l Hl IH Hc]; constructor.
  - apply IH. now inversion HF.
  - inversion HF as [|? ? (m & Hm) HF']; subst.
    rewrite Forall_forall in *. intros d Hd.
    destruct (HF' d Hd) as (m' & Hm'). exists m, m'.
    repeat split; try assumption.
    specialize (Hc d Hd). unfold key_le, sort_key in Hc.
    rewrite Hm, Hm' in Hc. cbn in Hc. lia.
Qed.

(** X3.  [get_conversations] never raises: the sort never meets a [None]
    key, because every entry has a last message.  That message is one the
    two users exchanged and none they exchanged is more recent; the entry's
    user is in the table; its unread count is the number
    [mark_messages_as_read] would return for that peer; and the entries
    are ordered by last message, most recent first. *)
Theorem get_conversations_entries (s : db) (uid : Z) :
  exists l,
    get_conversations s uid = Ok l
    /\ StronglySorted recent_first l
    /\ forall c, In c l ->
         In (conv_user c) (users s)
         /\ unread_count c = snd (mark_messages_as_read s uid (user_id (conv_user c)))
         /\ exists m,
              last_message c = Some m
              /\ In m (messages s)
              /\ between uid (user_id (conv_user c)) m = true
              /\ forall m', In m' (messages s) ->
                            between uid (user_id (conv_user c)) m' = true ->
                            created_at m' <= created_at m.
Proof.
  unfold get_conversations.
  set (ids := nodup Z.eq_dec _).
  set (peers := filter _ (users s)).
  set (convs := map _ peers).
  assert (Hconv : forall c, In c convs ->
            In (conv_user c) (users s)
            /\ unread_count c = snd (mark_messages_as_read s uid (user_id (conv_user c)))
            /\ exists m,
                 last_message c = Some m
                 /\ In m (messages s)
                 /\ between uid (user_id (conv_user c)) m = true
                 /\ forall m', In m' (messages s) ->
                               between uid (user_id (conv_user c)) m' = true ->
                               created_at m' <= created_at m).
  { intros c Hc. apply in_map_iff in Hc as (u & <- & Hu).
    apply filter_In in Hu as [Hu Hid]. cbn [conv_user unread_count last_message].
    split; [exact Hu|]. split; [reflexivity|].
    apply existsb_eqb_In, peer_ids_spec in Hid as (m0 & Hm0 & Hb0).
    destruct (first_order_by_desc created_at
                (filter (between uid (user_id u)) (messages s)))
      as (m & Hm & Hin & Hmax).
    - intros E. assert (In m0 (filter (between uid (user_id u)) (messages s)))
        by (apply filter_In; now split).
      rewrite E in H. contradiction.
    - exists m. apply filter_In in Hin as [Hin Hb]. repeat split; try assumption.
      intros m' Hm' Hb'. apply Hmax, filter_In. now split. }
  assert (Hlast : Forall (fun c => exists m, last_message c = Some m) convs).
  { apply Forall_forall. intros c Hc.
    destruct (Hconv c Hc) as (_ & _ & m & Hm & _). now exists m. }
  unfold sort_conversations.
  replace (existsb _ convs) with false.
  - rewrite andb_false_r. eexists. split; [reflexivity|]. split.
    + apply sorted_recent_first.
      * eapply Permutation_Forall; [|exact Hlast].
        apply Permutation_sym, order_by_asc_perm.
      * apply order_by_asc_sorted.
    + intros c Hc. apply Hconv. unfold order_by_desc in Hc.
      now apply order_by_asc_In in Hc.
  - symmetry. apply not_true_is_false. intros E.
    apply existsb_exists in E as (c & Hc & Hk).
    rewrite Forall_forall in Hlast. destruct (Hlast c Hc) as (m & Hm).
    unfold sort_key in Hk. rewrite Hm in Hk. discriminate.
Qed.

(** X4.  The users listed by [get_conversations] are exactly the users of
    the table with whom a message was exchanged in either direction, each
    listed as often as the table holds it; a peer whose id is not in the
    table of users is left out. *)
Theorem get_conversations_peers (s : db) (uid : Z) (l : list Conversation) :
  get_conversations s uid = Ok l ->
  Permutation (map conv_user l)
    (filter (fun u => existsb (between uid (user_id u)) (messages s)) (users s))
  /\ forall u, (exists c, In c l /\ conv_user c = u) <->
               In u (users s)
               /\ exists m, In m (messages s)
                            /\ ((sender_id m = uid /\ receiver_id m = user_id u)
                                \/ (sender_id m = user_id u /\ receiver_id m = uid)).
Proof.
  intros Hl.
  assert (HP : Permutation (map conv_user l)
                 (filter (fun u => existsb (between uid (user_id u)) (messages s))
                    (users s))).
  { unfold get_conversations, sort_conversations in Hl.
    destruct (_ && _); [discriminate|]. injection Hl as <-.
    eapply perm_trans; [apply Permutation_map, order_by_asc_perm|].
    rewrite map_map. cbn [conv_user]. rewrite map_id.
    erewrite filter_ext; [apply Permutation_refl|].
    intros u. cbn beta.
    destruct (existsb (between uid (user_id u)) (messages s)) eqn:E.
    - apply existsb_eqb_In, peer_ids_spec.
      apply existsb_exists in E. exact E.
    - apply not_true_is_false. intros H.
      apply existsb_eqb_In, peer_ids_spec in H.
      apply existsb_exists in H. congruence. }
  split; [exact HP|]. intros u.
  assert (Hin : In u (map conv_user l) <-> exists c, In c l /\ conv_user c = u).
  { rewrite in_map_iff. split; intros (c & H1 & H2); exists c; tauto. }
  rewrite <- Hin. split.
  - intros H. apply (Permutation_in _ HP) in H.
    apply filter_In in H as [Hu E]. split; [exact Hu|].
    apply existsb_exists in E as (m & Hm & Hb).
    exists m. split; [exact Hm|]. apply between_spec in Hb. tauto.
  - intros (Hu & m & Hm & Hb).
    apply (Permutation_in _ (Permutation_sym HP)), filter_In.
    split; [exact Hu|]. apply existsb_exists. exists m. split; [exact Hm|].
    apply between_spec. tauto.
Qed.

Lemma get_conversations_peers_witness :
  let u n := mkUser n None None None None None None None None None in
  let m1 := mkMessage 1 1 2 "hi" true 10 in
  let m2 := mkMessage 2 3 1 "yo" false 30 in
  let m3 := mkMessage 3 2 1 "re" false 20 in
  let m4 := mkMessage 4 1 9 "gone" false 40 in
  let s := mkDb [u 1; u 2; u 3; u 4] [] [] [] [] [m1; m2; m3; m4] in
  get_conversations s 1
  = Ok [mkConversation (u 3) (Some m2) 1; mkConversation (u 2) (Some m3) 1]
  /\ Permutation [u 3; u 2] [u 2; u 3].
Proof.
  intros u m1 m2 m3 m4 s.
  split; [reflexivity|].
  apply (get_conversations_peers s 1 _ eq_refl).
Defined.

End MoreMessaging.

(** ** More on likes and posts *)

Section MoreLikes.
Import PostService.

Lemma key_determines_row {A : Type} (id : A -> Z) (l : list A) (x y : A) :
  NoDup (map id l) -> In x l -> In y l -> id y = id x -> y = x.
Proof.
  induction l as [|z l IH]; simpl; [contradiction|].
  intros Hnd Hx Hy E. inversion Hnd as [|? ? Hz Hnd']; subst.
  destruct Hx as [->|Hx], Hy as [->|Hy]; try reflexivity.
  - exfalso. apply Hz. rewrite <- E. now apply in_map.
  - exfalso. apply Hz. rewrite E. now apply in_map.
  - now apply IH.
Qed.

Lemma NoDup_map_filter {A : Type} (id : A -> Z) (g : A -> bool) (l : list A) :
  NoDup (map id l) -> NoDup (map id (filter g l)).
Proof.
  induction l as [|z l IH]; simpl; [constructor|].
  intros Hnd. inversion Hnd as [|? ? Hz Hnd']; subst.
  destruct (g z); [|now apply IH]. cbn [map]. constructor; [|now apply IH].
  intros Hin. apply Hz. apply in_map_iff in Hin as (y & E & Hy).
  apply filter_In in Hy as [Hy _]. rewrite <- E. now apply in_map.
Qed.

Lemma filter_filter_length {A : Type} (f g : A -> bool) (l : list A) :
  (length (filter f (filter g l)) <= length (filter f l))%nat.
Proof.
  induction l as [|z l IH]; simpl; [lia|].
  destruct (g z), (f z) eqn:E; simpl; rewrite ?E; simpl; lia.
Qed.

Lemma delete_by_key_fresh {A : Type} (id : A -> Z) (l : list A) (k : Z) :
  (forall x, In x l -> id x <> k) ->
  filter (fun x => negb (id x =? k)) l = l.
Proof.
  induction l as [|z l IH]; simpl; intros H; [reflexivity|].
  assert (id z <> k) as Hz by (apply H; now left).
  apply Z.eqb_neq in Hz. rewrite Hz. cbn. f_equal. apply IH.
  intros x Hx. apply H. now right.
Qed.

Lemma delete_by_key_count {A : Type} (id : A -> Z) (g : A -> bool) (l : list A) (x : A) :
  NoDup (map id l) -> In x l -> g x = true ->
  length (filter g l)
  = S (length (filter g (filter (fun r => negb (id r =? id x)) l))).
Proof.
  induction l as [|z l IH]; simpl; [contradiction|].
  intros Hnd Hx Hg. inversion Hnd as [|? ? Hz Hnd']; subst.
  destruct Hx as [->|Hx].
  - rewrite Hg, Z.eqb_refl. cbn [negb length]. f_equal. f_equal.
    symmetry. rewrite delete_by_key_fresh; [reflexivity|].
    intros y Hy E. apply Hz. rewrite <- E. now apply in_map.
  - assert (id z <> id x) as Hne
      by (intros E; apply Hz; rewrite E; now apply in_map).
    apply Z.eqb_neq in Hne. rewrite Hne. cbn [negb filter].
    destruct (g z); cbn [length]; rewrite (IH Hnd' Hx Hg); reflexivity.
Qed.

(** X5.  Liking a post the user has not liked and then unliking it gives
    back the store as it was before the like; the unlike returns true. *)
Theorem like_then_unlike (s : db) (now pid uid : Z) :
  has_liked_post s pid uid = false ->
  unlike_post (fst (like_post s now pid uid)) pid uid = (s, true).
Proof.
  unfold has_liked_post. intros H. unfold unlike_post.
  rewrite has_liked_post_after_like. unfold like_post.
  destruct (first (filter (like_of pid uid) (likes s))) eqn:E; [discriminate|].
  cbn [fst snd set_likes likes like_id]. f_equal.
  rewrite filter_app. cbn [filter]. rewrite Z.eqb_refl. cbn [negb].
  rewrite app_nil_r, delete_by_key_fresh; [now destruct s|].
  intros x Hx. apply (next_id_fresh like_id) in Hx. lia.
Qed.

Lemma like_then_unlike_witness :
  let s := set_likes empty_db [mkLike 1 7 4 0] in
  unlike_post (fst (like_post s 5 7 3)) 7 3 = (s, true).
Proof. intros s. apply (like_then_unlike s 5 7 3). reflexivity. Defined.

(** X6.  [like_post] and [unlike_post] keep the table of likes well
    formed: keys stay distinct and no (post, user) pair gets a second
    row. *)
Theorem likes_wf_preserved (s : db) (now pid uid : Z) :
  likes_wf s ->
  likes_wf (fst (like_post s now pid uid))
  /\ likes_wf (fst (unlike_post s pid uid)).
Proof.
  intros [Hnd Hone]. split.
  - unfold like_post.
    destruct (first (filter (like_of pid uid) (likes s))) eqn:E; [now split|].
    split; cbn [fst set_likes likes].
    + rewrite map_app. cbn [map like_id].
      apply NoDup_app; [exact Hnd | repeat constructor; now intros [] |].
      intros k Hk [<-|[]]. apply in_map_iff in Hk as (x & Hx & Hxin).
      apply (next_id_fresh like_id) in Hxin. lia.
    + intros p u. rewrite filter_app, length_app. cbn [filter].
      unfold like_of at 2. cbn [like_post_id like_user_id].
      destruct ((pid =? p) && (uid =? u)) eqn:Epu.
      * apply andb_true_iff in Epu as [Ep Eu].
        apply Z.eqb_eq in Ep, Eu. subst p u.
        rewrite (first_filter_none _ _ E). cbn. lia.
      * cbn [length]. specialize (Hone p u). lia.
  - unfold unlike_post.
    destruct (first (filter (like_of pid uid) (likes s))) eqn:E; [|now split].
    split; cbn [fst set_likes likes].
    + now apply NoDup_map_filter.
    + intros p u. specialize (Hone p u).
      pose proof (filter_filter_length (like_of p u)
                    (fun l0 => negb (like_id l0 =? like_id l)) (likes s)). lia.
Qed.

Lemma likes_wf_preserved_witness :
  let s := set_likes empty_db [mkLike 1 7 4 0] in
  likes_wf (fst (like_post s 5 7 3)) /\ likes_wf (fst (unlike_post s 7 3)).
Proof.
  intros s. apply (likes_wf_preserved s 5 7 3).
  split.
  - repeat constructor. now intros [].
  - intros p u. cbn [likes s set_likes filter].
    destruct (like_of p u _); cbn; lia.
Defined.

Lemma filter_filter_absorb {A : Type} (f g : A -> bool) (l : list A) :
  (forall x, In x l -> f x = true -> g x = true) ->
  filter f (filter g l) = filter f l.
Proof.
  induction l as [|z l IH]; simpl; intros H; [reflexivity|].
  rewrite <- IH by (intros x Hx; apply H; now right).
  destruct (f z) eqn:Ef.
  - rewrite (H z (or_introl eq_refl) Ef). cbn [filter]. now rewrite Ef.
  - destruct (g z); cbn [filter]; rewrite ?Ef; reflexivity.
Qed.

(** X7.  On a well-formed table of likes, [unlike_post(p, u)] for a post
    the user has liked returns true and removes exactly that like: the
    user has no longer liked the post, the post's count goes down by one,
    and what any user has liked of another post, or another user of this
    one, and the count of every other post, are as before. *)
Theorem unlike_post_removes (s : db) (pid uid : Z) :
  likes_wf s ->
  has_liked_post s pid uid = true ->
  let s' := fst (unlike_post s pid uid) in
  snd (unlike_post s pid uid) = true
  /\ has_liked_post s' pid uid = false
  /\ get_post_likes_count s pid = S (get_post_likes_count s' pid)
  /\ (forall p u, p <> pid \/ u <> uid ->
                  has_liked_post s' p u = has_liked_post s p u)
  /\ (forall p, p <> pid -> get_post_likes_count s' p = get_post_likes_count s p).
Proof.
  intros [Hnd Hone]. unfold has_liked_post at 1, unlike_post.
  destruct (first (filter (like_of pid uid) (likes s))) as [l0|] eqn:E;
    [intros _ | discriminate].
  apply first_filter_some in E as [Hin Hlike].
  cbn [fst snd]. unfold has_liked_post, get_post_likes_count.
  cbn [set_likes likes].
  assert (Hl0 : like_post_id l0 = pid /\ like_user_id l0 = uid).
  { unfold like_of in Hlike. apply andb_true_iff in Hlike.
    now rewrite !Z.eqb_eq in Hlike. }
  assert (Hkeep : forall f : Like -> bool,
             f l0 = false ->
             filter f (filter (fun l => negb (like_id l =? like_id l0)) (likes s))
             = filter f (likes s)).
  { intros f Hf. apply filter_filter_absorb. intros x Hx Hfx.
    apply negb_true_iff, Z.eqb_neq. intros Eid.
    rewrite (key_determines_row like_id _ _ _ Hnd Hin Hx Eid) in Hfx. congruence. }
  repeat apply conj.
  - reflexivity.
  - pose proof (delete_by_key_count like_id (like_of pid uid) _ _ Hnd Hin Hlike) as Hc.
    specialize (Hone pid uid).
    destruct (filter (like_of pid uid) (filter _ (likes s))); [reflexivity|].
    cbn [length] in Hc. lia.
  - apply (delete_by_key_count like_id); try assumption.
    apply Z.eqb_eq. tauto.
  - intros p u Hpu. rewrite Hkeep; [reflexivity|].
    unfold like_of. destruct Hl0 as [-> ->].
    destruct Hpu as [H|H]; apply not_eq_sym, Z.eqb_neq in H; rewrite H;
      [reflexivity | apply andb_false_r].
  - intros p Hp. rewrite Hkeep; [reflexivity|].
    destruct Hl0 as [-> _]. now apply Z.eqb_neq, not_eq_sym.
Qed.

Lemma unlike_post_removes_witness :
  let s := set_likes empty_db [mkLike 1 7 4 0; mkLike 2 7 3 1; mkLike 3 8 3 2] in
  unlike_post s 7 3 = (set_likes empty_db [mkLike 1 7 4 0; mkLike 3 8 3 2], true)
  /\ get_post_likes_count s 7 = S (get_post_likes_count (fst (unlike_post s 7 3)) 7).
Proof.
  intros s. split; [reflexivity|].
  apply (unlike_post_removes s 7 3); [|reflexivity].
  split.
  - repeat constructor; simpl; intuition discriminate.
  - intros p u. cbn [likes s set_likes filter]. unfold like_of.
    cbn [like_post_id like_user_id].
    destruct (7 =? p) eqn:E7, (8 =? p) eqn:E8, (4 =? u) eqn:E4, (3 =? u) eqn:E3;
      cbn; try lia;
      rewrite ?Z.eqb_eq in *; lia.
Defined.

End MoreLikes.

(** ** More on posts and comments *)

Section MorePosts.
Import PostService UserService.

(** X8.  [get_user_posts(u, skip, limit)] is the window of [limit] rows
    after the first [skip] (10 and 0 when omitted) of the posts written by
    [u], newest first: every post returned is a post of the table written
    by [u], a page has at most [limit] posts, and a [skip] that reaches
    the number of posts of [u] gives the empty page. *)
Theorem get_user_posts_page (s : db) (uid : Z) (skip lim : option nat) :
  let written := filter (fun p => author_id p =? uid) (posts s) in
  let all := get_user_posts s uid (Some 0%nat) (Some (length (posts s))) in
  let page := get_user_posts s uid skip lim in
  page = firstn (default_arg 10%nat lim) (skipn (default_arg 0%nat skip) all)
  /\ Permutation all written
  /\ StronglySorted newest_first all
  /\ StronglySorted newest_first page
  /\ (forall p, In p page -> In p (posts s) /\ author_id p = uid)
  /\ (length page <= default_arg 10%nat lim)%nat
  /\ ((length written <= default_arg 0%nat skip)%nat -> page = []).
Proof.
  intros written all page.
  set (sorted := order_by_desc post_created_at written).
  assert (HP : Permutation sorted written) by apply order_by_asc_perm.
  assert (Hall : all = sorted).
  { unfold all, get_user_posts, limit, offset. cbn [default_arg skipn].
    apply firstn_all2. fold written. fold sorted.
    rewrite (Permutation_length HP). apply filter_length_le. }
  assert (Hpage : page = firstn (default_arg 10%nat lim)
                           (skipn (default_arg 0%nat skip) sorted)) by reflexivity.
  rewrite Hall. repeat apply conj.
  - exact Hpage.
  - exact HP.
  - apply sorted_newest_first, order_by_asc_sorted.
  - rewrite Hpage.
    apply sorted_newest_first, sorted_firstn, sorted_skipn, order_by_asc_sorted.
  - intros p H. rewrite Hpage in H. apply In_limit, In_offset in H.
    apply (Permutation_in _ HP), filter_In in H.
    split; [tauto | now apply Z.eqb_eq].
  - rewrite Hpage. apply firstn_le_length.
  - intros Hskip. rewrite Hpage, skipn_all2; [apply firstn_nil|].
    now rewrite (Permutation_length HP).
Qed.

Lemma get_post_by_id_appended (s : db) (p : Post) :
  (forall q, In q (posts s) -> post_id q <> post_id p) ->
  get_post_by_id (set_posts s (posts s ++ [p])) (post_id p) = Some p.
Proof.
  intros H. unfold get_post_by_id. cbn [set_posts posts].
  rewrite filter_app.
  replace (filter _ (posts s)) with (@nil Post).
  - cbn [filter app]. now rewrite Z.eqb_refl.
  - symmetry. apply first_filter_none, first_filter_absent.
    intros q Hq. apply Z.eqb_neq. now apply H.
Qed.

Lemma string_length_append (a b : string) :
  String.length (a ++ b) = (String.length a + String.length b)%nat.
Proof. induction a as [|c a IH]; simpl; [reflexivity | now rewrite IH]. Qed.

Lemma append_cancel_l (a x y : string) : (a ++ x = a ++ y)%string -> x = y.
Proof. induction a as [|c a IH]; simpl; [auto | intros [= H]; auto]. Qed.

Lemma append_cancel_r (c x y : string) : (x ++ c = y ++ c)%string -> x = y.
Proof.
  revert y. induction x as [|a x IH]; intros [|b y] H; simpl in H.
  - reflexivity.
  - apply (f_equal String.length) in H. simpl in H.
    rewrite string_length_append in H. lia.
  - apply (f_equal String.length) in H. simpl in H.
    rewrite string_length_append in H. lia.
  - injection H as -> H. f_equal. now apply IH.
Qed.

Section CreatePostFacts.
Variable fs : Type.
Variable str_of_int : Z -> string.
Variable str_of_timestamp : Z -> string.
Variable save : string -> string -> string -> fs -> option fs.

(** X9.  When [create_post] returns, it has appended one post with a
    fresh id, the given author and text and the insertion time, and
    touched no other table; [get_post_by_id] finds that post.  If the post
    is newer than every stored post, it is the first post of
    [get_user_posts] of its author and of the feed of every existing user
    who is the author or has the author among [get_user_connections]. *)
Theorem create_post_stores (s s' : db) (disk disk' : fs) (t_path t_url now : Z)
    (author : Z) (text : string) (image : option UploadFile) (post : Post) :
  create_post fs str_of_int str_of_timestamp save
    s disk t_path t_url now author text image = Some (s', disk', post) ->
  posts s' = posts s ++ [post]
  /\ set_posts s' (posts s) = s
  /\ author_id post = author
  /\ post_content post = text
  /\ post_created_at post = now
  /\ ~ In (post_id post) (map post_id (posts s))
  /\ get_post_by_id s' (post_id post) = Some post
  /\ ((forall p, In p (posts s) -> post_created_at p < now) ->
      hd_error (get_user_posts s' author None None) = Some post
      /\ forall viewer u,
           get_user_by_id s viewer = Some u ->
           viewer = author
           \/ (exists v, In v (get_user_connections s viewer) /\ user_id v = author) ->
           hd_error (get_feed_posts s' viewer None None) = Some post).
Proof.
  unfold create_post. intros H.
  assert (Hpost : exists url,
             post = mkPost (next_id post_id (posts s)) author text url now
             /\ s' = set_posts s (posts s ++ [post])).
  { destruct image as [img|].
    - destruct (save _ _ _ disk); [|discriminate].
      injection H as <- _ <-. eauto.
    - injection H as <- _ <-. eauto. }
  clear H. destruct Hpost as (url & Hp & ->).
  assert (Hfresh : forall q, In q (posts s) -> post_id q <> post_id post).
  { intros q Hq. apply (next_id_fresh post_id) in Hq. rewrite Hp. cbn. lia. }
  assert (Hhead : forall (f : Post -> bool),
             (forall p, In p (posts s) -> post_created_at p < now) ->
             f post = true ->
             order_by_desc post_created_at (filter f (posts s ++ [post]))
             = post :: order_by_desc post_created_at (filter f (posts s))).
  { intros f Hnew Hf. rewrite filter_app. cbn [filter]. rewrite Hf.
    apply order_by_asc_snoc_least. intros y Hy.
    apply filter_In in Hy as [Hy _]. specialize (Hnew y Hy).
    rewrite Hp. cbn. lia. }
  cbn [set_posts posts]. repeat apply conj; try (rewrite Hp; reflexivity).
  - now destruct s.
  - intros Hin. apply in_map_iff in Hin as (q & Hq & Hqin).
    exact (Hfresh q Hqin Hq).
  - now apply get_post_by_id_appended.
  - intros H. split.
    + unfold get_user_posts. cbn [set_posts posts].
      rewrite Hhead; [reflexivity | exact H |].
      rewrite Hp. cbn. apply Z.eqb_refl.
    + intros viewer u Hu Hsees.
      unfold get_feed_posts. unfold get_user_by_id in Hu.
      cbn [set_posts users posts]. rewrite Hu.
      replace (User_connections (set_posts s (posts s ++ [post])) u)
        with (User_connections s u) by reflexivity.
      rewrite Hhead; [reflexivity | exact H |].
      rewrite existsb_connection_ids, existsb_map_id. apply orb_true_iff.
      replace (author_id post) with author by (rewrite Hp; reflexivity).
      destruct Hsees as [->|(v & Hv & Hid)]; [left; apply Z.eqb_refl|right].
      apply existsb_exists. exists v. split.
      * unfold get_user_connections, get_user_by_id in Hv. now rewrite Hu in Hv.
      * now apply Z.eqb_eq.
Qed.

(** X10.  The image of a post.  Without an image [create_post] always
    returns, writes no file and stores no image reference.  With one,
    the failure of the file write is the failure of the call and nothing
    is stored; otherwise the file is written under a name made from the
    first reading of the clock and the stored reference is made from a
    second reading, so the reference names the file written exactly when
    both readings print the same. *)
Theorem create_post_image_reference (s : db) (disk : fs) (t_path t_url now : Z)
    (author : Z) (text : string) :
  (exists s' post,
     create_post fs str_of_int str_of_timestamp save
       s disk t_path t_url now author text None = Some (s', disk, post)
     /\ image_url post = None)
  /\ forall img,
       let path :=
         ("app/static/post_images/" ++ image_name str_of_int str_of_timestamp author t_path img)%string in
       match save "app/static/post_images" path (file img) disk with
       | None =>
           create_post fs str_of_int str_of_timestamp save
             s disk t_path t_url now author text (Some img) = None
       | Some disk' =>
           exists s' post url,
             create_post fs str_of_int str_of_timestamp save
               s disk t_path t_url now author text (Some img)
             = Some (s', disk', post)
             /\ image_url post = Some url
             /\ (("app" ++ url)%string = path
                 <-> str_of_timestamp t_url = str_of_timestamp t_path)
       end.
Proof.
  unfold create_post. split; [eexists _, _; split; reflexivity|].
  intros img.
  change ("app/static/post_images" ++ "/"
          ++ image_name str_of_int str_of_timestamp author t_path img)%string
    with ("app/static/post_images/"
          ++ image_name str_of_int str_of_timestamp author t_path img)%string.
  destruct (save _ _ _ disk) as [disk'|]; [|reflexivity].
  eexists _, _, _. split; [reflexivity|]. split; [reflexivity|].
  unfold image_name. cbn [append]. split.
  - intros H. repeat (injection H as H).
    apply append_cancel_l in H. injection H as H.
    now apply append_cancel_r in H.
  - now intros ->.
Qed.
End CreatePostFacts.

(** A post with an image on a store where user 2 has user 1 among its
    connections: the file goes under the name of the first clock reading,
    the reference carries the second, and the post heads both feeds. *)
Lemma create_post_stores_witness :
  let fs := list (string * string) in
  let render (z : Z) := if z =? 1 then "1" else if z =? 5 then "5.0" else "6.0" in
  let save (dir path data : string) (disk : fs) := Some ((path, data) :: disk) in
  let u n := mkUser n None None None None None None None None None in
  let old := mkPost 1 2 "old" None 3 in
  let s := mkDb [u 1; u 2] [(2, 1)] [] [old] [] [] in
  let new := mkPost 2 1 "new" (Some "/static/post_images/1_6.0_a.png") 7 in
  create_post fs render render save s [] 5 6 7 1 "new" (Some (mkUploadFile "a.png" "xx"))
  = Some (set_posts s [old; new],
          [("app/static/post_images/1_5.0_a.png", "xx")], new)
  /\ hd_error (PostService.get_feed_posts (set_posts s [old; new]) 2 None None) = Some new
  /\ get_post_by_id (set_posts s [old; new]) 2 = Some new.
Proof.
  intros fs render save u old s new.
  assert (H : create_post fs render render save s [] 5 6 7 1 "new"
                (Some (mkUploadFile "a.png" "xx"))
              = Some (set_posts s [old; new],
                      [("app/static/post_images/1_5.0_a.png", "xx")], new))
    by reflexivity.
  split; [exact H|].
  destruct (create_post_stores fs render render save _ _ _ _ _ _ _ _ _ _ _ H)
    as (_ & _ & _ & _ & _ & _ & Hget & Hhead).
  split; [|exact Hget].
  destruct Hhead as [_ Hfeed].
  - intros p [<-|[]]. reflexivity.
  - apply (Hfeed 2 (u 2) eq_refl). right.
    exists (u 1). split; [now left | reflexivity].
Defined.

(** X11.  [add_comment] appends one comment with a fresh key.  A comment
    added after every comment of its post comes last in
    [get_post_comments] of that post, which lists exactly the comments of
    the post, oldest first; the comments listed for any other post are
    unchanged. *)
Theorem add_comment_then_get_post_comments (comments : list Comment)
    (now pid author : Z) (text : string) :
  let comments' := fst (add_comment comments now pid author text) in
  let comment := snd (add_comment comments now pid author text) in
  ~ In (comment_id comment) (map comment_id comments)
  /\ ((forall c, In c comments -> comment_post_id c = pid ->
                 comment_created_at c < now) ->
      get_post_comments comments' pid = get_post_comments comments pid ++ [comment])
  /\ (forall other, other <> pid ->
                    get_post_comments comments' other = get_post_comments comments other)
  /\ (forall p,
        Permutation (get_post_comments comments p)
          (filter (fun c => comment_post_id c =? p) comments)
        /\ StronglySorted (key_le comment_created_at) (get_post_comments comments p)).
Proof.
  intros comments' comment.
  unfold comments', comment, add_comment, get_post_comments. cbn [fst snd].
  repeat apply conj.
  - cbn [comment_id]. intros Hin. apply in_map_iff in Hin as (x & Hx & Hxin).
    apply (next_id_fresh comment_id) in Hxin. lia.
  - intros Hnew. rewrite filter_app. cbn [filter comment_post_id].
    rewrite Z.eqb_refl. apply order_by_asc_snoc.
    intros y Hy. apply filter_In in Hy as [Hy Hp]. apply Z.eqb_eq in Hp.
    specialize (Hnew y Hy Hp). cbn. lia.
  - intros other Hother. rewrite filter_app. cbn [filter comment_post_id].
    apply not_eq_sym, Z.eqb_neq in Hother. rewrite Hother. now rewrite app_nil_r.
  - intros p. split; [apply order_by_asc_perm | apply order_by_asc_sorted].
Qed.

Lemma add_comment_then_get_post_comments_witness :
  let c1 := mkComment 1 7 3 "first" 10 in
  let c2 := mkComment 2 8 3 "other" 30 in
  let c3 := mkComment 3 7 4 "second" 20 in
  get_post_comments (fst (add_comment [c1; c2] 20 7 4 "second")) 7 = [c1; c3].
Proof.
  intros c1 c2 c3.
  apply (add_comment_then_get_post_comments [c1; c2] 20 7 4 "second").
  intros c [<-|[<-|[]]]; [reflexivity | discriminate].
Defined.

End MorePosts.

(** ** More on users *)

Section MoreUsers.
Import UserService.

Lemma first_filter_snoc {A : Type} (f : A -> bool) (l : list A) (x : A) :
  first (filter f (l ++ [x]))
  = match first (filter f l) with
    | Some y => Some y
    | None => if f x then Some x else None
    end.
Proof.
  rewrite filter_app. unfold first.
  destruct (filter f l); cbn [app filter hd_error]; [|reflexivity].
  now destruct (f x).
Qed.

Lemma taken_same (col : User -> option string) (e : string) (rows : list User) :
  taken col (Some e) rows = false ->
  forall v, In v rows -> same (col v) (Some e) = false.
Proof.
  intros H v Hv. apply not_true_is_false. intros Hs.
  apply same_eq in Hs. apply not_true_iff_false in H. apply H.
  apply taken_spec. now exists v.
Qed.

Section CreateUserLookups.
Variable get_password_hash : string -> string.

(** X12.  A user that [create_user] returns is found by
    [get_user_by_id], [get_user_by_email] and [get_user_by_username]
    under its id, email and username; every lookup by another id, email
    or username answers as before. *)
Theorem create_user_then_lookup (s s' : db) (now : Z) (e u pw n : string)
    (user : User) :
  create_user get_password_hash s now e u pw n = Ok (s', user) ->
  get_user_by_id s' (user_id user) = Some user
  /\ get_user_by_email s' e = Some user
  /\ get_user_by_username s' u = Some user
  /\ (forall i, i <> user_id user -> get_user_by_id s' i = get_user_by_id s i)
  /\ (forall e', e' <> e -> get_user_by_email s' e' = get_user_by_email s e')
  /\ (forall u', u' <> u -> get_user_by_username s' u' = get_user_by_username s u').
Proof.
  unfold create_user.
  destruct (taken email (Some e) (users s) || taken username (Some u) (users s))
    eqn:Ht; [discriminate|].
  apply orb_false_iff in Ht as [He Hu].
  intros [= <- <-].
  unfold get_user_by_id, get_user_by_email, get_user_by_username.
  cbn [set_users users]. rewrite !first_filter_snoc.
  cbn [user_id email username same].
  rewrite !Z.eqb_refl, !String.eqb_refl.
  rewrite !first_filter_absent.
  - repeat apply conj; try reflexivity.
    + intros i Hi. rewrite first_filter_snoc. cbn [user_id].
      apply not_eq_sym, Z.eqb_neq in Hi. rewrite Hi. now destruct (first _).
    + intros e' He'. rewrite first_filter_snoc. cbn [email same].
      apply not_eq_sym, String.eqb_neq in He'. rewrite He'. now destruct (first _).
    + intros u' Hu'. rewrite first_filter_snoc. cbn [username same].
      apply not_eq_sym, String.eqb_neq in Hu'. rewrite Hu'. now destruct (first _).
  - now apply taken_same.
  - now apply taken_same.
  - intros v Hv. apply Z.eqb_neq. apply (next_id_fresh user_id) in Hv. lia.
Qed.
End CreateUserLookups.

Lemma create_user_then_lookup_witness :
  let hash p := ("#" ++ p)%string in
  let alice :=
    mkUser 1 (Some "alice@x") (Some "alice") (Some "#pw") (Some "Alice")
      None None (Some "/static/default_profile.png") None (Some 5) in
  let s := set_users empty_db [alice] in
  get_user_by_email s "alice@x" = Some alice
  /\ get_user_by_username s "alice" = Some alice
  /\ get_user_by_email s "bob@x" = None.
Proof.
  intros hash alice s.
  destruct (create_user_then_lookup hash empty_db s 5 "alice@x" "alice" "pw" "Alice"
              alice eq_refl) as (_ & He & Hu & _ & Hother & _).
  split; [exact He|]. split; [exact Hu|].
  now rewrite (Hother "bob@x").
Defined.

Lemma unique_column_replaced (col : User -> option string) (rows : list User)
    (user u' : User) :
  unique_column col rows ->
  In user rows ->
  user_id u' = user_id user ->
  negb (same (col user) (col u'))
  && taken col (col u') (filter (fun v => negb (user_id v =? user_id user)) rows)
  = false ->
  unique_column col (map (fun v => if user_id v =? user_id user then u' else v) rows).
Proof.
  intros Huniq Hin Hid Hclash.
  assert (Hother : forall b e, In b rows -> user_id b <> user_id user ->
                               col u' = Some e -> col b = Some e -> False).
  { intros b e Hb Hne Hu' Hcb. apply andb_false_iff in Hclash as [Hs|Ht].
    - apply negb_false_iff, same_eq in Hs.
      apply Hne. apply (Huniq b user e); congruence.
    - rewrite Hu' in Ht. apply not_true_iff_false in Ht. apply Ht.
      apply taken_spec. exists b. split; [|exact Hcb].
      apply filter_In. split; [exact Hb|]. now apply negb_true_iff, Z.eqb_neq. }
  intros a' b' e Ha' Hb' Hca Hcb.
  apply in_map_iff in Ha' as (a & <- & Ha), Hb' as (b & <- & Hb).
  destruct (user_id a =? user_id user) eqn:Ea, (user_id b =? user_id user) eqn:Eb.
  - reflexivity.
  - exfalso. apply Z.eqb_neq in Eb. exact (Hother b e Hb Eb Hca Hcb).
  - exfalso. apply Z.eqb_neq in Ea. exact (Hother a e Ha Ea Hcb Hca).
  - exact (Huniq a b e Ha Hb Hca Hcb).
Qed.

Lemma map_user_id_replaced (rows : list User) (uid : Z) (u' : User) :
  user_id u' = uid ->
  map user_id (map (fun v => if user_id v =? uid then u' else v) rows)
  = map user_id rows.
Proof.
  intros Hid. rewrite map_map. apply map_ext. intros v.
  destruct (user_id v =? uid) eqn:E; [|reflexivity].
  apply Z.eqb_eq in E. congruence.
Qed.

Section UsersInvariant.
Variable get_password_hash : string -> string.
Variable object_attribute : string -> bool.
Variable setattr_object : string -> option string -> option exn.

(** X13.  [create_user] and [update_profile] keep the table of users well
    formed: whenever either returns, ids are still distinct and no email
    and no username is held by two users. *)
Theorem users_wf_preserved (s s' : db) :
  users_wf s ->
  (forall now e u pw n user,
     create_user get_password_hash s now e u pw n = Ok (s', user) -> users_wf s')
  /\ (forall uid kwargs o,
        update_profile object_attribute setattr_object s uid kwargs = Ok (s', o) ->
        users_wf s').
Proof.
  intros (Hnd & Hemail & Hname). split.
  - intros now e u pw n user. unfold create_user.
    destruct (taken email (Some e) (users s) || taken username (Some u) (users s))
      eqn:Ht; [discriminate|].
    apply orb_false_iff in Ht as [He Hu]. intros [= <- _].
    assert (Hadd : forall (col : User -> option string) (x : string) (new : User),
               unique_column col (users s) ->
               taken col (Some x) (users s) = false ->
               col new = Some x ->
               unique_column col (users s ++ [new])).
    { intros col x new Huniq Hfree Hnew a b e' Ha Hb Hca Hcb.
      apply in_app_iff in Ha, Hb.
      assert (Hold : forall v, In v (users s) -> col v = Some x -> False).
      { intros v Hv Hcv. apply (taken_same _ _ _ Hfree) in Hv.
        apply not_true_iff_false in Hv. apply Hv. now apply same_eq. }
      destruct Ha as [Ha|[<-|[]]], Hb as [Hb|[<-|[]]].
      - exact (Huniq a b e' Ha Hb Hca Hcb).
      - exfalso. apply (Hold a Ha). congruence.
      - exfalso. apply (Hold b Hb). congruence.
      - reflexivity. }
    split; [|split]; cbn [set_users users].
    + rewrite map_app. cbn [map user_id].
      apply NoDup_app; [exact Hnd | repeat constructor; now intros [] |].
      intros k Hk [<-|[]]. apply in_map_iff in Hk as (x & Hx & Hxin).
      apply (next_id_fresh user_id) in Hxin. lia.
    + now apply (Hadd email e).
    + now apply (Hadd username u).
  - intros uid kwargs o. unfold update_profile.
    destruct (get_user_by_id s uid) as [user|] eqn:Hu;
      [|intros [= <- _]; now split].
    destruct (get_user_by_id_some _ _ _ Hu) as [Hin Hid].
    destruct (fold_left (apply_kwarg object_attribute setattr_object) kwargs _)
      as [p|e] eqn:E; [|discriminate].
    cbn [bind]. unfold commit_user.
    destruct (unstorable p); [discriminate|].
    destruct (_ || _) eqn:Hclash; [discriminate|].
    apply orb_false_iff in Hclash as [Hce Hcn]. intros [= <- _].
    apply update_loop_frame in E as [Hsame _]. cbn [obj] in Hsame.
    split; [|split]; cbn [set_users users].
    + now rewrite map_user_id_replaced.
    + now apply unique_column_replaced.
    + now apply unique_column_replaced.
Qed.
End UsersInvariant.

Lemma users_wf_preserved_witness :
  let u1 := mkUser 1 (Some "a@x") (Some "a") (Some "#1") (Some "A")
              None None None None (Some 3) in
  let u2 := mkUser 2 (Some "b@x") (Some "b") (Some "#2") (Some "B")
              None None None None (Some 4) in
  let u2' := mkUser 2 (Some "c@x") (Some "b") (Some "#2") (Some "B")
               None None None None (Some 4) in
  users_wf (set_users empty_db [u1; u2']).
Proof.
  intros u1 u2 u2'.
  assert (Hwf : users_wf (set_users empty_db [u1; u2])).
  { split; [|split].
    - repeat constructor; simpl; intuition discriminate.
    - intros a b e [<-|[<-|[]]] [<-|[<-|[]]]; cbn; congruence.
    - intros a b e [<-|[<-|[]]] [<-|[<-|[]]]; cbn; congruence. }
  destruct (users_wf_preserved (fun p => p) (fun k => String.eqb k "__class__")
              (fun _ _ => Some TypeError) _ (set_users empty_db [u1; u2']) Hwf)
    as [_ Hupdate].
  apply (Hupdate 2 [("email", Some "c@x")] (Some u2')). reflexivity.
Defined.

Lemma pending_after_store (r' : ConnectionRequest) (uid : Z)
    (rows : list ConnectionRequest) :
  status r' <> "pending" ->
  filter (fun r => (request_receiver_id r =? uid) && String.eqb (status r) "pending")
    (store_request r' rows)
  = filter (fun x => negb (request_id x =? request_id r'))
      (filter (fun r => (request_receiver_id r =? uid) && String.eqb (status r) "pending")
         rows).
Proof.
  intros Hst. apply String.eqb_neq in Hst. unfold store_request.
  induction rows as [|x rows IH]; [reflexivity|]. cbn [map filter].
  destruct (request_id x =? request_id r') eqn:E.
  - rewrite Hst, andb_false_r, IH.
    destruct (_ && _); [cbn [filter]; now rewrite E | reflexivity].
  - rewrite IH. destruct (_ && _); [cbn [filter]; now rewrite E | reflexivity].
Qed.

Lemma store_request_ids (r' : ConnectionRequest) (rows : list ConnectionRequest) :
  map request_id (store_request r' rows) = map request_id rows.
Proof.
  unfold store_request. rewrite map_map. apply map_ext. intros x.
  destruct (request_id x =? request_id r') eqn:E; [|reflexivity].
  apply Z.eqb_eq in E. congruence.
Qed.

Lemma store_request_In (r r' : ConnectionRequest) (rows : list ConnectionRequest) :
  In r rows -> request_id r' = request_id r -> In r' (store_request r' rows).
Proof.
  intros Hin Hid. unfold store_request. apply in_map_iff. exists r.
  split; [|exact Hin]. rewrite Hid. now rewrite Z.eqb_refl.
Qed.

Lemma store_request_fresh (r' : ConnectionRequest) (rows : list ConnectionRequest) :
  (forall x, In x rows -> request_id x <> request_id r') ->
  store_request r' rows = rows.
Proof.
  intros H. unfold store_request. rewrite <- (map_id rows) at 2.
  apply map_ext_in. intros x Hx. apply H, Z.eqb_neq in Hx. now rewrite Hx.
Qed.

(** X14.  Rejecting a pending request of the table (request ids being a
    primary key) returns it with status rejected, stores that status and
    nothing else: no user's connections change, the request leaves the
    pending requests of its receiver and every other pending request
    stays, ids stay distinct; and the request is then settled: rejecting
    or accepting it again returns [None] and changes nothing. *)
Theorem reject_pending_request (s : db) (r : ConnectionRequest) :
  In r (connection_requests s) ->
  NoDup (map request_id (connection_requests s)) ->
  status r = "pending" ->
  let s' := fst (reject_connection_request s (request_id r)) in
  snd (reject_connection_request s (request_id r)) = Some (set_status r "rejected")
  /\ In (set_status r "rejected") (connection_requests s')
  /\ set_connection_requests s' (connection_requests s) = s
  /\ (forall u, get_user_connections s' u = get_user_connections s u)
  /\ (forall u, get_pending_requests s' u
                = filter (fun x => negb (request_id x =? request_id r))
                    (get_pending_requests s u))
  /\ NoDup (map request_id (connection_requests s'))
  /\ reject_connection_request s' (request_id r) = (s', None)
  /\ accept_connection_request s' (request_id r) = Ok (s', None).
Proof.
  intros Hin Hnd Hst s'.
  assert (Hs' : reject_connection_request s (request_id r)
                = (set_connection_requests s
                     (store_request (set_status r "rejected") (connection_requests s)),
                   Some (set_status r "rejected"))).
  { unfold reject_connection_request.
    now rewrite (first_by_key request_id _ _ Hin Hnd), Hst. }
  unfold s'. rewrite Hs'. cbn [fst snd set_connection_requests connection_requests].
  assert (Hin' : In (set_status r "rejected")
                   (store_request (set_status r "rejected") (connection_requests s)))
    by now apply (store_request_In r).
  assert (Hnd' : NoDup (map request_id
                          (store_request (set_status r "rejected")
                             (connection_requests s))))
    by now rewrite store_request_ids.
  repeat apply conj; try assumption.
  - reflexivity.
  - now destruct s.
  - reflexivity.
  - intros u. unfold get_pending_requests.
    cbn [connection_requests set_connection_requests].
    now rewrite pending_after_store.
  - unfold reject_connection_request.
    cbn [connection_requests set_connection_requests].
    change (request_id r) with (request_id (set_status r "rejected")).
    now rewrite (first_by_key request_id _ _ Hin' Hnd').
  - unfold accept_connection_request.
    cbn [connection_requests set_connection_requests].
    change (request_id r) with (request_id (set_status r "rejected")).
    now rewrite (first_by_key request_id _ _ Hin' Hnd').
Qed.

Lemma reject_pending_request_witness :
  let r1 := mkConnectionRequest 1 1 2 "pending" 0 in
  let r2 := mkConnectionRequest 2 3 2 "pending" 5 in
  let s := mkDb [] [] [r1; r2] [] [] [] in
  get_pending_requests s 2 = [r1; r2]
  /\ get_pending_requests (fst (reject_connection_request s 1)) 2 = [r2].
Proof.
  intros r1 r2 s. split; [reflexivity|].
  destruct (reject_pending_request s r1) as (_ & _ & _ & _ & Hp & _).
  - now left.
  - repeat constructor; simpl; intuition discriminate.
  - reflexivity.
  - now rewrite Hp.
Defined.

(** X15.  The life of a connection.  For existing users S and R (not
    required to differ) with no pending request from S to R and R not
    among S's connections, [send_connection_request(S, R)] stores a
    request that joins the pending requests of R; accepting it by its id
    succeeds and puts R among [get_user_connections(S)]; the request then
    leaves R's pending requests, cannot be rejected any more, and a new
    [send_connection_request(S, R)] returns [None] and stores nothing. *)
Theorem connection_life (s : db) (now later : Z) (sid rid : Z) (ua ub : User) :
  get_user_by_id s sid = Some ua ->
  get_user_by_id s rid = Some ub ->
  (forall x, In x (connection_requests s) -> pending_from_to sid rid x = false) ->
  (forall v, In v (get_user_connections s sid) -> user_id v <> rid) ->
  exists s1 request s2,
    send_connection_request s now sid rid = Ok (s1, Some request)
    /\ get_pending_requests s1 rid = get_pending_requests s rid ++ [request]
    /\ accept_connection_request s1 (request_id request)
       = Ok (s2, Some (set_status request "accepted"))
    /\ In ub (get_user_connections s2 sid)
    /\ get_pending_requests s2 rid = get_pending_requests s rid
    /\ reject_connection_request s2 (request_id request) = (s2, None)
    /\ send_connection_request s2 later sid rid = Ok (s2, None).
Proof.
  intros Ha Hb Hnone Hnot.
  destruct (get_user_by_id_some _ _ _ Ha) as [Hain Haid].
  destruct (get_user_by_id_some _ _ _ Hb) as [Hbin Hbid].
  set (request := mkConnectionRequest (next_id request_id (connection_requests s))
                    sid rid "pending" now).
  set (s1 := set_connection_requests s (connection_requests s ++ [request])).
  assert (Hfresh : forall x, In x (connection_requests s) ->
                             request_id x <> request_id request).
  { intros x Hx. apply (next_id_fresh request_id) in Hx. cbn. lia. }
  assert (Hfind : forall rows',
             first (filter (fun r => request_id r =? request_id request)
                      (connection_requests s ++ rows'))
             = first (filter (fun r => request_id r =? request_id request) rows')).
  { intros rows'. rewrite filter_app.
    replace (filter _ (connection_requests s)) with (@nil ConnectionRequest);
      [reflexivity|].
    symmetry. apply first_filter_none, first_filter_absent.
    intros x Hx. now apply Z.eqb_neq, Hfresh. }
  set (s2 := mkDb (users s) (connections s ++ [(user_id ua, user_id ub)])
               (connection_requests s ++ [set_status request "accepted"])
               (posts s) (likes s) (messages s)).
  assert (Hstore : store_request (set_status request "accepted")
                     (connection_requests s ++ [request])
                   = connection_requests s ++ [set_status request "accepted"]).
  { unfold store_request. rewrite map_app.
    fold (store_request (set_status request "accepted") (connection_requests s)).
    rewrite store_request_fresh by exact Hfresh.
    cbn [map set_status request_id]. now rewrite Z.eqb_refl. }
  exists s1, request, s2. repeat apply conj.
  - unfold send_connection_request.
    rewrite (first_filter_absent _ _ Hnone), Ha. cbn [deref bind].
    unfold get_user_connections in Hnot. rewrite Ha in Hnot.
    replace (existsb _ (User_connections s ua)) with false; [reflexivity|].
    symmetry. apply not_true_is_false. intros H.
    apply existsb_exists in H as (v & Hv & Hid).
    apply Z.eqb_eq in Hid. exact (Hnot v Hv Hid).
  - unfold get_pending_requests, s1. cbn [set_connection_requests connection_requests].
    rewrite filter_app. cbn [filter request request_receiver_id status].
    now rewrite Z.eqb_refl.
  - rewrite (accept_found s1 _ request ua ub).
    + unfold s1. cbn [set_connection_requests users connections connection_requests
                        posts likes messages].
      rewrite Hstore, (connection_row_absent s ua ub Hbin); [reflexivity|].
      unfold get_user_connections in Hnot. rewrite Ha in Hnot.
      intros v Hv. rewrite Hbid. now apply Hnot.
    + unfold s1. cbn [set_connection_requests connection_requests].
      rewrite (Hfind [request]). cbn [filter]. now rewrite Z.eqb_refl.
    + reflexivity.
    + exact Ha.
    + exact Hb.
  - unfold get_user_connections.
    change (get_user_by_id s2 sid) with (get_user_by_id s sid). rewrite Ha.
    apply filter_In. split; [exact Hbin | apply append_connection_adds].
  - unfold get_pending_requests, s2. cbn [connection_requests].
    rewrite filter_app. cbn [filter set_status status String.eqb Ascii.eqb Bool.eqb].
    rewrite andb_false_r. apply app_nil_r.
  - unfold reject_connection_request, s2. cbn [connection_requests].
    rewrite (Hfind [set_status request "accepted"]).
    cbn [filter set_status request_id request]. rewrite Z.eqb_refl. reflexivity.
  - unfold send_connection_request, s2. cbn [connection_requests].
    rewrite first_filter_absent.
    + change (get_user_by_id (mkDb (users s) _ _ _ _ _) sid)
        with (get_user_by_id s sid).
      rewrite Ha. cbn [deref bind].
      replace (existsb _ _) with true; [reflexivity|].
      symmetry. apply existsb_exists. exists ub. split.
      * apply filter_In. split; [exact Hbin | apply append_connection_adds].
      * now apply Z.eqb_eq.
    + intros x Hx. apply in_app_iff in Hx as [Hx|[<-|[]]]; [now apply Hnone|].
      unfold pending_from_to. cbn. apply andb_false_r.
Qed.

Lemma connection_life_witness :
  let u n := mkUser n None None None None None None None None None in
  let s := mkDb [u 1; u 2] [] [] [] [] [] in
  let r := mkConnectionRequest 1 1 2 "pending" 5 in
  let r' := mkConnectionRequest 1 1 2 "accepted" 5 in
  let s2 := mkDb [u 1; u 2] [(1, 2)] [r'] [] [] [] in
  exists s1,
    send_connection_request s 5 1 2 = Ok (s1, Some r)
    /\ accept_connection_request s1 1 = Ok (s2, Some r')
    /\ send_connection_request s2 9 1 2 = Ok (s2, None).
Proof.
  intros u s r r' s2.
  destruct (connection_life s 5 9 1 2 (u 1) (u 2))
    as (s1 & request & s2' & Hsend & _ & Haccept & _ & _ & _ & Hagain);
    try reflexivity.
  - intros x [].
  - intros v [].
  - assert (E1 : send_connection_request s 5 1 2
                 = Ok (set_connection_requests s [r], Some r)) by reflexivity.
    rewrite E1 in Hsend. injection Hsend as <- <-.
    assert (E2 : accept_connection_request (set_connection_requests s [r]) 1
                 = Ok (s2, Some r')) by reflexivity.
    change (request_id r) with 1 in Haccept.
    rewrite E2 in Haccept. injection Haccept as <-.
    eexists. split; [exact E1|]. split; [exact E2 | exact Hagain].
Defined.

(** X20.  Accepting a pending request from S to R, both existing, when R
    is already among [get_user_connections(S)] fails: the row (S, R) is
    inserted a second time and the commit raises [IntegrityError], so
    that nothing is stored and the request stays pending. *)
Theorem accept_connection_request_row_stored (s : db) (r : ConnectionRequest)
    (ua ub : User) :
  In r (connection_requests s) ->
  NoDup (map request_id (connection_requests s)) ->
  status r = "pending" ->
  get_user_by_id s (request_sender_id r) = Some ua ->
  get_user_by_id s (request_receiver_id r) = Some ub ->
  In ub (get_user_connections s (request_sender_id r)) ->
  accept_connection_request s (request_id r) = Raise IntegrityError.
Proof.
  intros Hin Hnd Hst Ha Hb Hconn.
  rewrite (accept_found s _ r ua ub (first_by_key request_id _ _ Hin Hnd) Hst Ha Hb).
  unfold get_user_connections in Hconn. rewrite Ha in Hconn.
  apply filter_In in Hconn as [_ Hrow]. now rewrite Hrow.
Qed.

Lemma accept_connection_request_row_stored_witness :
  let u n := mkUser n None None None None None None None None None in
  let r1 := mkConnectionRequest 1 1 2 "accepted" 0 in
  let r2 := mkConnectionRequest 2 1 2 "pending" 3 in
  let s := mkDb [u 1; u 2] [(1, 2)] [r1; r2] [] [] [] in
  get_user_connections s 1 = [u 2]
  /\ accept_connection_request s 2 = Raise IntegrityError.
Proof.
  intros u r1 r2 s. split; [reflexivity|].
  apply (accept_connection_request_row_stored s r2 (u 1) (u 2)); try reflexivity.
  - right. now left.
  - repeat constructor; simpl; intuition discriminate.
  - now left.
Defined.

(** *** [search_users] *)

Lemma like_any_run (p t : string) :
  like (String "%" p) t
  = like p t || match t with
                | EmptyString => false
                | String _ t' => like (String "%" p) t'
                end.
Proof. destruct t; reflexivity. Qed.

Lemma like_any_run_spec (p t : string) :
  like (String "%" p) t = true <->
  exists a b, t = (a ++ b)%string /\ like p b = true.
Proof.
  induction t as [|c t IH]; rewrite like_any_run, orb_true_iff.
  - split.
    + intros [H|H]; [|discriminate]. now exists ""%string, ""%string.
    + intros ([|] & b & Hab & Hb); [|discriminate]. cbn in Hab. subst b. now left.
  - rewrite IH. split.
    + intros [H|(a & b & -> & Hb)].
      * now exists ""%string, (String c t).
      * now exists (String c a), b.
    + intros ([|c' a] & b & Hab & Hb); cbn in Hab.
      * subst b. now left.
      * injection Hab as <- ->. right. now exists a, b.
Qed.

Lemma like_one_char (c : ascii) (p t : string) :
  c <> "%"%char -> c <> "_"%char ->
  like (String c p) t
  = match t with
    | EmptyString => false
    | String a t' => Ascii.eqb a c && like p t'
    end.
Proof.
  intros H1 H2. cbn [like].
  apply Ascii.eqb_neq in H1, H2. rewrite H1, H2. reflexivity.
Qed.

Lemma like_plain (q r t : string) :
  plain q ->
  like (q ++ r) t = true <-> exists b, t = (q ++ b)%string /\ like r b = true.
Proof.
  revert t. induction q as [|c q IH]; intros t Hq; cbn [append].
  - split; [intros H; now exists t | now intros (b & -> & H)].
  - destruct Hq as (H1 & H2 & Hq). rewrite like_one_char by assumption.
    destruct t as [|a t].
    + split; [discriminate | now intros (b & [=] & _)].
    + rewrite andb_true_iff, Ascii.eqb_eq, (IH t Hq). split.
      * intros (-> & b & -> & Hb). now exists b.
      * intros (b & [= -> ->] & Hb). split; [reflexivity | now exists b].
Qed.

Lemma like_percent (t : string) : like "%" t = true.
Proof.
  induction t as [|c t IH]; rewrite like_any_run; [reflexivity|].
  rewrite IH. apply orb_true_r.
Qed.

Lemma lower_append (a b : string) : lower (a ++ b) = (lower a ++ lower b)%string.
Proof. induction a as [|c a IH]; cbn; [reflexivity | now rewrite IH]. Qed.

Lemma lower_char_wildcard (c : ascii) :
  (lower_char c = "%"%char -> c = "%"%char)
  /\ (lower_char c = "_"%char -> c = "_"%char).
Proof.
  destruct c as [[] [] [] [] [] [] [] []]; vm_compute; split; intros H;
    first [exact H | discriminate H].
Qed.

Lemma plain_lower (q : string) : plain q -> plain (lower q).
Proof.
  induction q as [|c q IH]; cbn; [trivial|].
  intros (H1 & H2 & Hq). destruct (lower_char_wildcard c) as [Hp Hu].
  repeat split; auto.
Qed.

Lemma lower_char_spec (c : ascii) :
  (lower_char c = c /\ ~ (65 <= N_of_ascii c <= 90)%N)
  \/ ((65 <= N_of_ascii c <= 90)%N
      /\ N_of_ascii (lower_char c) = (N_of_ascii c + 32)%N).
Proof.
  unfold lower_char.
  destruct ((65 <=? N_of_ascii c)%N && (N_of_ascii c <=? 90)%N) eqn:E.
  - apply andb_true_iff in E as [E1 E2]. apply N.leb_le in E1, E2.
    right. split; [lia|]. apply N_ascii_embedding. lia.
  - left. split; [reflexivity|]. intros [H1 H2].
    apply N.leb_le in H1, H2. now rewrite H1, H2 in E.
Qed.

Lemma lower_char_same (c d : ascii) :
  lower_char c = lower_char d <-> same_letter c d.
Proof.
  unfold same_letter. split.
  - intros H.
    destruct (lower_char_spec c) as [[Hc Hnc]|[Hc Hlc]],
             (lower_char_spec d) as [[Hd Hnd]|[Hd Hld]].
    + left. congruence.
    + right. right. split; [exact Hd|]. rewrite <- Hld, <- H, Hc. reflexivity.
    + right. left. split; [exact Hc|]. rewrite <- Hlc, H, Hd. reflexivity.
    + left. rewrite <- (ascii_N_embedding c), <- (ascii_N_embedding d).
      f_equal. rewrite H in Hlc. lia.
  - assert (Hup : forall a b,
               (65 <= N_of_ascii a <= 90)%N -> N_of_ascii b = (N_of_ascii a + 32)%N ->
               lower_char a = lower_char b).
    { intros a b Ha Hb.
      destruct (lower_char_spec a) as [[_ Hna]|[_ Hla]]; [contradiction|].
      destruct (lower_char_spec b) as [[-> _]|[Hb' _]]; [|lia].
      rewrite <- (ascii_N_embedding (lower_char a)), <- (ascii_N_embedding b).
      f_equal. lia. }
    intros [->|[[Hc Hd]|[Hd Hc]]]; [reflexivity | now apply Hup|].
    symmetry. now apply Hup.
Qed.

Lemma same_text_lower (q m : string) : same_text q m <-> lower q = lower m.
Proof.
  split.
  - induction 1 as [|c d t t' Hcd _ IH]; [reflexivity|].
    cbn [lower]. apply lower_char_same in Hcd. now rewrite Hcd, IH.
  - revert m. induction q as [|c q IH]; intros [|d m]; cbn [lower];
      try discriminate.
    + constructor.
    + intros [= Hcd Hqm]. constructor; [now apply lower_char_same | now apply IH].
Qed.

Lemma lower_split (v x y : string) :
  lower v = (x ++ y)%string ->
  exists a b, v = (a ++ b)%string /\ lower a = x /\ lower b = y.
Proof.
  revert v. induction x as [|c x IH]; intros v H.
  - now exists ""%string, v.
  - destruct v as [|d v]; [discriminate|]. cbn [lower append] in H.
    injection H as Hc Hv. destruct (IH v Hv) as (a & b & -> & Ha & Hb).
    exists (String d a), b. cbn [lower append]. now rewrite Hc, Ha.
Qed.

Lemma occurs_in_lower (q : string) (column : option string) :
  occurs_in q column <->
  exists v a b, column = Some v /\ lower v = (a ++ lower q ++ b)%string.
Proof.
  unfold occurs_in. split.
  - intros (v & a & m & b & Hv & -> & Hm). apply same_text_lower in Hm.
    exists (a ++ m ++ b)%string, (lower a), (lower b).
    now rewrite !lower_append, Hm.
  - intros (v & a' & b' & Hv & Hl).
    apply lower_split in Hl as (a & r & -> & _ & Hr).
    apply lower_split in Hr as (m & b & -> & Hm & _).
    exists (a ++ m ++ b)%string, a, m, b.
    split; [exact Hv|]. split; [reflexivity|]. now apply same_text_lower.
Qed.

Lemma ilike_contains (q : string) (column : option string) :
  plain q ->
  ilike column ("%" ++ q ++ "%") = true <-> occurs_in q column.
Proof.
  intros Hq. rewrite occurs_in_lower. unfold ilike. destruct column as [v|].
  - rewrite lower_append. change (lower "%") with "%"%string.
    cbn [append]. rewrite like_any_run_spec, lower_append.
    change (lower "%") with "%"%string. split.
    + intros (a & b & Hv & Hb).
      apply (like_plain _ _ _ (plain_lower _ Hq)) in Hb as (c & -> & _).
      now exists v, a, c.
    + intros (v' & a & c & [= <-] & Hv). exists a, (lower q ++ c)%string.
      split; [exact Hv|]. apply (like_plain _ _ _ (plain_lower _ Hq)).
      exists c. split; [reflexivity | apply like_percent].
  - split; [discriminate | now intros (v & a & b & [=] & _)].
Qed.

Lemma ilike_one_char (column : option string) :
  ilike column ("%" ++ "_" ++ "%") = true <->
  exists v, column = Some v /\ v <> ""%string.
Proof.
  unfold ilike. destruct column as [v|].
  - change (lower ("%" ++ "_" ++ "%")) with "%_%"%string.
    rewrite like_any_run_spec. split.
    + intros (a & b & Hv & Hb). exists v. split; [reflexivity|].
      intros ->. destruct a, b; discriminate.
    + intros (v' & [= <-] & Hne). destruct v as [|c v]; [contradiction|].
      exists ""%string, (lower (String c v)). split; [reflexivity|].
      cbn [lower like]. cbn [Ascii.eqb Bool.eqb]. apply like_percent.
  - split; [discriminate | now intros (v & [=] & _)].
Qed.

(** X16.  [search_users(query, limit)] returns the first [limit]
    (10 when omitted) of the users it matches, and the users it matches
    come in the order of the table: they are the table with the users not
    matched left out.  For a query without [%] and [_], the users matched
    are exactly those whose full name, headline or username is not NULL
    and contains the query when letter case (A to Z) is ignored, so that
    the result is the first [limit] such users of the table.  The
    characters [%] and [_] of a query are read as wildcards: the query [_]
    matches every user with a non-empty full name, headline or
    username. *)
Theorem search_users_matches (s : db) (query : string) (lim : option nat) :
  let all := search_users s query (Some (length (users s))) in
  search_users s query lim = firstn (default_arg 10%nat lim) all
  /\ (length (search_users s query lim) <= default_arg 10%nat lim)%nat
  /\ (forall u, In u (search_users s query lim) -> In u all)
  /\ (forall matched : User -> bool,
        (forall u, In u (users s) -> (matched u = true <-> In u all)) ->
        all = filter matched (users s))
  /\ (plain query ->
      (forall u, In u all <->
                 In u (users s)
                 /\ (occurs_in query (full_name u)
                     \/ occurs_in query (headline u)
                     \/ occurs_in query (username u)))
      /\ (forall matched : User -> bool,
            (forall u, matched u = true <->
                       occurs_in query (full_name u)
                       \/ occurs_in query (headline u)
                       \/ occurs_in query (username u)) ->
            search_users s query lim
            = firstn (default_arg 10%nat lim) (filter matched (users s))))
  /\ (forall u, In u (search_users s "_" (Some (length (users s)))) <->
                In u (users s)
                /\ exists v, v <> ""%string
                             /\ (full_name u = Some v \/ headline u = Some v
                                 \/ username u = Some v)).
Proof.
  intros all.
  assert (Hall : forall q, search_users s q (Some (length (users s)))
                           = filter (fun u => ilike (full_name u) ("%" ++ q ++ "%")
                                              || ilike (headline u) ("%" ++ q ++ "%")
                                              || ilike (username u) ("%" ++ q ++ "%"))
                               (users s)).
  { intros q. unfold search_users, limit. cbn [default_arg].
    apply firstn_all2, filter_length_le. }
  assert (Hsame : forall f g : User -> bool,
             (forall u, In u (users s) -> (f u = true <-> g u = true)) ->
             filter f (users s) = filter g (users s)).
  { intros f g H. apply filter_ext_in. intros u Hu. specialize (H u Hu).
    destruct (f u), (g u); intuition congruence. }
  split; [|split; [|split; [|split; [|split]]]].
  - unfold all. rewrite Hall. reflexivity.
  - apply firstn_le_length.
  - intros u Hu. unfold all. rewrite Hall. now apply In_limit in Hu.
  - intros matched Hm. unfold all in *. rewrite Hall in *.
    apply Hsame. intros u Hu. rewrite (Hm u Hu), filter_In. tauto.
  - intros Hq. split.
    + intros u. unfold all. rewrite Hall, filter_In, !orb_true_iff.
      rewrite !(ilike_contains _ _ Hq). tauto.
    + intros matched Hm. unfold search_users, limit. f_equal.
      apply Hsame. intros u _.
      rewrite (Hm u), !orb_true_iff, !(ilike_contains _ _ Hq). tauto.
  - intros u. rewrite Hall, filter_In, !orb_true_iff, !ilike_one_char. split.
    + intros (Hu & [[(v & H & Hv)|(v & H & Hv)]|(v & H & Hv)]);
        (split; [exact Hu | exists v; tauto]).
    + intros (Hu & v & Hv & [H|[H|H]]); (split; [exact Hu|]);
        [left; left | left; right | right]; now exists v.
Qed.

Lemma search_users_matches_witness :
  let u1 := mkUser 1 None (Some "jsmith") None (Some "John SMITH") None None None None None in
  let u2 := mkUser 2 None (Some "ann") None (Some "Ann Lee") (Some "Blacksmith") None None None None in
  let u3 := mkUser 3 None (Some "bob") None (Some "Bob") None None None None None in
  let s := set_users empty_db [u1; u2; u3] in
  search_users s "Smith" None = [u1; u2]
  /\ search_users s "smith" (Some 1%nat) = [u1]
  /\ search_users s "b%b" None = [u3]
  /\ In u2 (search_users s "Smith" (Some 3%nat))
  /\ search_users s "Smith" None = filter (fun u => user_id u <? 3) (users s).
Proof.
  intros u1 u2 u3 s.
  destruct (search_users_matches s "Smith" None)
    as (_ & _ & _ & Horder & Hplain & _).
  split; [reflexivity|]. split; [reflexivity|]. split; [reflexivity|]. split.
  - apply Hplain.
    + cbn. repeat split; discriminate.
    + split; [right; now left|]. right. left.
      exists "Blacksmith"%string, "Black"%string, "smith"%string, ""%string.
      split; [reflexivity|]. split; [reflexivity|].
      apply same_text_lower. reflexivity.
  - change (search_users s "Smith" None)
      with (search_users s "Smith" (Some (length (users s)))).
    apply Horder.
    intros u [<-|[<-|[<-|[]]]]; cbn; intuition (discriminate || congruence).
Defined.

(** *** [update_profile_image] *)

Lemma get_user_by_id_other_replaced (s : db) (uid other : Z) (u' : User) :
  user_id u' = uid -> other <> uid ->
  get_user_by_id
    (set_users s (map (fun v => if user_id v =? uid then u' else v) (users s))) other
  = get_user_by_id s other.
Proof.
  intros Hid Hne. unfold get_user_by_id. cbn [set_users users]. f_equal.
  induction (users s) as [|v l IH]; [reflexivity|]. cbn [map filter].
  destruct (user_id v =? uid) eqn:E.
  - apply Z.eqb_eq in E. rewrite Hid, E.
    apply not_eq_sym, Z.eqb_neq in Hne. now rewrite Hne.
  - now rewrite IH.
Qed.

Section ProfileImageFacts.
Variable fs : Type.
Variable str_of_int : Z -> string.
Variable save : string -> string -> string -> fs -> option fs.

(** X17.  [update_profile_image] for a missing user returns [None],
    writes no file and stores nothing.  For an existing user the failure
    of the file write is the failure of the call; otherwise the user
    returned is the stored one, its image reference names the file just
    written, its id and every other column are as before, and every other
    user is found as before. *)
Theorem update_profile_image_reference (s : db) (disk : fs) (uid : Z)
    (upload : UploadFile) :
  (get_user_by_id s uid = None ->
   update_profile_image fs str_of_int save s disk uid upload = Some (s, disk, None))
  /\ forall user,
       get_user_by_id s uid = Some user ->
       let path :=
         ("app/static/profile_images/" ++ str_of_int uid ++ "_" ++ filename upload)%string in
       match save "app/static/profile_images" path (file upload) disk with
       | None => update_profile_image fs str_of_int save s disk uid upload = None
       | Some disk' =>
           exists s' u' ref,
             update_profile_image fs str_of_int save s disk uid upload
             = Some (s', disk', Some u')
             /\ profile_image u' = Some ref
             /\ ("app" ++ ref)%string = path
             /\ get_user_by_id s' uid = Some u'
             /\ (forall other, other <> uid ->
                               get_user_by_id s' other = get_user_by_id s other)
             /\ user_id u' = uid
             /\ user_created_at u' = user_created_at user
             /\ (forall c, c <> ProfileImage -> get_column c u' = get_column c user)
             /\ set_users s' (users s) = s
       end.
Proof.
  unfold update_profile_image. split; [now intros ->|].
  intros user Hu. rewrite Hu.
  destruct (get_user_by_id_some _ _ _ Hu) as [_ Hid].
  change ("app/static/profile_images" ++ "/" ++ str_of_int uid ++ "_"
          ++ filename upload)%string
    with ("app/static/profile_images/" ++ str_of_int uid ++ "_"
          ++ filename upload)%string.
  cbv zeta.
  destruct (save _ _ _ disk) as [disk'|]; [|reflexivity].
  eexists _, _, _. split; [reflexivity|]. rewrite Hid.
  repeat apply conj; try reflexivity.
  - now apply (get_user_by_id_replaced s uid user).
  - intros other Hne. now apply get_user_by_id_other_replaced.
  - exact Hid.
  - intros c Hc. unfold set_profile_image. now apply get_set_other.
  - now destruct s.
Qed.
End ProfileImageFacts.

Lemma update_profile_image_reference_witness :
  let fs := list (string * string) in
  let render (z : Z) := if z =? 1 then "1" else "2" in
  let save (dir path data : string) (disk : fs) := Some ((path, data) :: disk) in
  let u n img := mkUser n None None None None None None img None None in
  let s := set_users empty_db [u 1 None; u 2 None] in
  update_profile_image fs render save s [] 2 (mkUploadFile "me.png" "xx")
  = Some (set_users empty_db [u 1 None; u 2 (Some "/static/profile_images/2_me.png")],
          [("app/static/profile_images/2_me.png", "xx")],
          Some (u 2 (Some "/static/profile_images/2_me.png")))
  /\ update_profile_image fs render save s [] 3 (mkUploadFile "me.png" "xx")
     = Some (s, [], None).
Proof.
  intros fs render save u s. split; [reflexivity|].
  now apply (update_profile_image_reference fs render save s [] 3).
Defined.

End MoreUsers.
